(** * BlockEditorProvider: the controlled-value synchronisation engine

    A shallow embedding of the [BlockEditorProvider] component of
    [@wordpress/block-editor] (provider/index.js): its three lifecycle
    methods and the store subscriber installed by [attachChangeObserver].

    JavaScript objects are compared by identity, so every object the
    component handles (a block array, a settings object, a selection
    endpoint, a registry, a host callback) is a reference.  The instance
    fields, the closure variables of the subscriber, the stores of the
    registries and the calls the component makes are threaded explicitly
    through a [World]. *)

From Stdlib Require Import List Bool PArith String.
From Stdlib Require Import ZArith Ascii Lia.
Import ListNotations.

Local Open Scope positive_scope.
Local Open Scope bool_scope.

(** ** Values *)

(** Identity of a JavaScript object; [===] on objects is [Pos.eqb]. *)
Definition Ref := positive.

(** What a block array points to: blocks with their inner blocks.  The
    component never looks inside; only the structural comparison does. *)
#[local] Set Warnings "-register-all".
Inductive Block : Type :=
  mkBlock (clientId : string) (name : string) (innerBlocks : list Block).

Fixpoint block_eqb (a b : Block) {struct a} : bool :=
  match a, b with
  | mkBlock ca na ia, mkBlock cb nb ib =>
      String.eqb ca cb && String.eqb na nb &&
      (fix all2 (xs ys : list Block) {struct xs} : bool :=
         match xs, ys with
         | [], [] => true
         | x :: xs', y :: ys' => block_eqb x y && all2 xs' ys'
         | _, _ => false
         end) ia ib
  end.

Fixpoint blocks_eqb (xs ys : list Block) : bool :=
  match xs, ys with
  | [], [] => true
  | x :: xs', y :: ys' => block_eqb x y && blocks_eqb xs' ys'
  | _, _ => false
  end.

(** lodash helpers used by the component. *)
Module lodash.

(** [last( array )]: the final element, [undefined] on an empty array. *)
Fixpoint last {A : Type} (l : list A) : option A :=
  match l with
  | [] => None
  | [x] => Some x
  | _ :: l' => last l'
  end.

End lodash.

(** [array.includes( v )] on an array of object references. *)
Definition includes (v : Ref) (l : list Ref) : bool :=
  existsb (Pos.eqb v) l.

(** [array.push( v )]. *)
Definition push (v : Ref) (l : list Ref) : list Ref := l ++ [v].

(** ** Props, store and events *)

Definition Registry := Ref.

(** [this.props].  [value], [settings] and [registry] are objects; the
    selection endpoints and the two callbacks may be left out
    ([undefined], here [None]).  An object is truthy, [undefined] is not. *)
Record Props : Type := {
  settings : Ref;
  value : Ref;
  selectionStart : option Ref;
  selectionEnd : option Ref;
  registry : Registry;
  onChange : option Ref;
  onInput : option Ref
}.

(** The selectors of [registry.select( 'core/block-editor' )] that the
    subscriber destructures, as their results in one store state. *)
Record StoreState : Type := {
  getBlocks : Ref;
  getSelectionStart : Ref;
  getSelectionEnd : Ref;
  areAnyInnerBlocksControlled : bool;
  isLastBlockChangePersistent : bool;
  __unstableIsLastBlockChangeIgnored : bool
}.

(** The three action creators handed over by [withDispatch]. *)
Inductive Action : Type :=
| UpdateSettings (s : Ref)
| ResetBlocks (blocks : Ref)
| ResetSelection (selectionStart selectionEnd : Ref).

(** Calls that leave the component.  [EOnChange h b s e] is the call
    [onChange( b, { selectionStart: s, selectionEnd: e } )] of the local
    binding [onChange], which is the host's callback [Some f] or, when the
    prop is not set ([h = None]), lodash's [noop]. *)
Inductive Event : Type :=
| EDispatch (r : Registry) (a : Action)
| ESubscribe (r : Registry)
| EUnsubscribe
| EOnChange (h : option Ref) (blocks : Ref) (selectionStart selectionEnd : Ref)
| EOnInput (h : option Ref) (blocks : Ref) (selectionStart selectionEnd : Ref).

(** The closure of the subscriber: the registry whose selectors it
    captured and its three [let] variables. *)
Record Observer : Type := {
  subscribedTo : Registry;
  blocks : Ref;
  isPersistent : bool;
  previousAreBlocksDifferent : bool
}.

(** The component instance in its environment.  [props],
    [isSyncingOutcomingValue], [isSyncingIncomingValue] and [unsubscribe]
    are the fields of [this]; [listener] is the subscription that is live
    on a registry, [stores] the state of every registry's block-editor
    store, [trace] the calls made so far, oldest first. *)
Record World : Type := {
  props : Props;
  isSyncingOutcomingValue : list Ref;
  isSyncingIncomingValue : option Ref;
  unsubscribe : option Registry;
  listener : option Observer;
  stores : Registry -> StoreState;
  trace : list Event
}.

Definition set_props (p : Props) (w : World) : World :=
  {| props := p;
     isSyncingOutcomingValue := isSyncingOutcomingValue w;
     isSyncingIncomingValue := isSyncingIncomingValue w;
     unsubscribe := unsubscribe w; listener := listener w;
     stores := stores w; trace := trace w |}.

Definition set_outcoming (q : list Ref) (w : World) : World :=
  {| props := props w;
     isSyncingOutcomingValue := q;
     isSyncingIncomingValue := isSyncingIncomingValue w;
     unsubscribe := unsubscribe w; listener := listener w;
     stores := stores w; trace := trace w |}.

Definition set_incoming (m : option Ref) (w : World) : World :=
  {| props := props w;
     isSyncingOutcomingValue := isSyncingOutcomingValue w;
     isSyncingIncomingValue := m;
     unsubscribe := unsubscribe w; listener := listener w;
     stores := stores w; trace := trace w |}.

Definition set_unsubscribe (u : option Registry) (w : World) : World :=
  {| props := props w;
     isSyncingOutcomingValue := isSyncingOutcomingValue w;
     isSyncingIncomingValue := isSyncingIncomingValue w;
     unsubscribe := u; listener := listener w;
     stores := stores w; trace := trace w |}.

Definition set_listener (o : option Observer) (w : World) : World :=
  {| props := props w;
     isSyncingOutcomingValue := isSyncingOutcomingValue w;
     isSyncingIncomingValue := isSyncingIncomingValue w;
     unsubscribe := unsubscribe w; listener := o;
     stores := stores w; trace := trace w |}.

Definition set_store (r : Registry) (s : StoreState) (w : World) : World :=
  {| props := props w;
     isSyncingOutcomingValue := isSyncingOutcomingValue w;
     isSyncingIncomingValue := isSyncingIncomingValue w;
     unsubscribe := unsubscribe w; listener := listener w;
     stores := fun r' => if r' =? r then s else stores w r';
     trace := trace w |}.

Definition log (e : Event) (w : World) : World :=
  {| props := props w;
     isSyncingOutcomingValue := isSyncingOutcomingValue w;
     isSyncingIncomingValue := isSyncingIncomingValue w;
     unsubscribe := unsubscribe w; listener := listener w;
     stores := stores w; trace := trace w ++ [e] |}.

(** An option-valued field used as a condition. *)
Definition truthy {A : Type} (x : option A) : bool :=
  match x with Some _ => true | None => false end.

(** ** The environment of the component *)

(** What the component relies on and does not define.

    [deref] is the heap of block arrays: the store treats block trees as
    immutable snapshots, so what a reference points to never changes.

    The block-editor store belongs to another package: [reduce] is the
    effect of an action on a store state, and [notifies a s] tells whether
    the registry calls its listeners after [a] was dispatched in state
    [s]. *)
Class Environment : Type := {
  deref : Ref -> list Block;
  reduce : Action -> StoreState -> StoreState;
  notifies : Action -> StoreState -> bool
}.

(** ** The component *)

Section BlockEditorProvider.

Context {env : Environment}.

(** Modelled from the spec: [isShallowEqual] of
    [@wordpress/is-shallow-equal] is imported but is not part of the
    sources at hand.  The specification (4.2, step 2) describes the
    comparison that is made when inner block areas are controlled as
    "structural (deep) equality between currentBlocks and lastBlocks". *)
Definition isShallowEqual (a b : Ref) : bool :=
  blocks_eqb (deref a) (deref b).

(** [const areBlocksDifferent = ...] of the subscriber, for the store
    state [s] it reads and its closure [o]. *)
Definition areBlocksDifferent (s : StoreState) (o : Observer) : bool :=
  if areAnyInnerBlocksControlled s
  then negb (isShallowEqual (getBlocks s) (blocks o))
  else negb (getBlocks s =? blocks o).

(** [const didPersistenceChange = ...]. *)
Definition didPersistenceChange (s : StoreState) (o : Observer) : bool :=
  previousAreBlocksDifferent o &&
  negb (areBlocksDifferent s o) &&
  isLastBlockChangePersistent s &&
  negb (isPersistent o).

(** The function passed to [registry.subscribe], run for the live
    subscription. *)
Definition subscriber (w : World) : World :=
  match listener w with
  | None => w
  | Some o =>
      let s := stores w (subscribedTo o) in
      let newBlocks := getBlocks s in
      let newIsPersistent := isLastBlockChangePersistent s in
      if areBlocksDifferent s o &&
         (truthy (isSyncingIncomingValue w) ||
          __unstableIsLastBlockChangeIgnored s)
      then
        set_listener
          (Some {| subscribedTo := subscribedTo o;
                   blocks := newBlocks;
                   isPersistent := newIsPersistent;
                   previousAreBlocksDifferent :=
                     previousAreBlocksDifferent o |})
          (set_incoming None w)
      else if areBlocksDifferent s o || didPersistenceChange s o then
        let w1 :=
          if areBlocksDifferent s o
          then set_outcoming (push newBlocks (isSyncingOutcomingValue w)) w
          else w in
        let selStart := getSelectionStart s in
        let selEnd := getSelectionEnd s in
        let w2 :=
          if newIsPersistent
          then log (EOnChange (onChange (props w)) newBlocks selStart selEnd) w1
          else log (EOnInput (onInput (props w)) newBlocks selStart selEnd) w1 in
        set_listener
          (Some {| subscribedTo := subscribedTo o;
                   blocks := newBlocks;
                   isPersistent := newIsPersistent;
                   previousAreBlocksDifferent := areBlocksDifferent s o |})
          w2
      else
        set_listener
          (Some {| subscribedTo := subscribedTo o;
                   blocks := blocks o;
                   isPersistent := isPersistent o;
                   previousAreBlocksDifferent := areBlocksDifferent s o |})
          w
  end.

(** The store of registry [r] tells its listeners that it changed. *)
Definition notify (r : Registry) (w : World) : World :=
  match listener w with
  | Some o => if subscribedTo o =? r then subscriber w else w
  | None => w
  end.

(** A bound action creator of [withDispatch]: the action reaches the
    store of the registry in context, whose listeners run before the call
    returns. *)
Definition dispatch (a : Action) (w : World) : World :=
  let r := registry (props w) in
  let s := stores w r in
  let w1 := log (EDispatch r a) (set_store r (reduce a s) w) in
  if notifies a s then notify r w1 else w1.

Definition updateSettings (s : Ref) : World -> World :=
  dispatch (UpdateSettings s).

Definition resetBlocks (v : Ref) : World -> World :=
  dispatch (ResetBlocks v).

Definition resetSelection (a b : Ref) : World -> World :=
  dispatch (ResetSelection a b).

(** [if ( this.unsubscribe ) { this.unsubscribe(); }] *)
Definition releaseSubscription (w : World) : World :=
  match unsubscribe w with
  | Some _ => log EUnsubscribe (set_listener None w)
  | None => w
  end.

Definition attachChangeObserver (r : Registry) (w : World) : World :=
  let w := releaseSubscription w in
  let s := stores w r in
  let o := {| subscribedTo := r;
              blocks := getBlocks s;
              isPersistent := isLastBlockChangePersistent s;
              previousAreBlocksDifferent := false |} in
  set_unsubscribe (Some r) (set_listener (Some o) (log (ESubscribe r) w)).

Definition componentDidMount (w : World) : World :=
  let p := props w in
  let w := updateSettings (settings p) w in
  let w := resetBlocks (value p) w in
  let w := attachChangeObserver (registry p) w in
  set_outcoming [] w.

(** The three conditionals of [componentDidUpdate], in source order. *)
Definition didUpdateSettings (prevProps : Props) (w : World) : World :=
  let p := props w in
  if settings p =? settings prevProps then w
  else updateSettings (settings p) w.

Definition didUpdateRegistry (prevProps : Props) (w : World) : World :=
  let p := props w in
  if registry p =? registry prevProps then w
  else attachChangeObserver (registry p) w.

(** [if ( selectionStart && selectionEnd ) { resetSelection( ... ); }] *)
Definition forwardSelection (p : Props) (w : World) : World :=
  match selectionStart p, selectionEnd p with
  | Some a, Some b => resetSelection a b w
  | _, _ => w
  end.

Definition didUpdateValue (prevProps : Props) (w : World) : World :=
  let p := props w in
  if includes (value p) (isSyncingOutcomingValue w) then
    match lodash.last (isSyncingOutcomingValue w) with
    | Some v => if v =? value p then set_outcoming [] w else w
    | None => w
    end
  else if negb (value p =? value prevProps) then
    let w := set_outcoming [] w in
    let w := set_incoming (Some (value p)) w in
    let w := resetBlocks (value p) w in
    forwardSelection p w
  else w.

Definition componentDidUpdate (prevProps : Props) (w : World) : World :=
  didUpdateValue prevProps
    (didUpdateRegistry prevProps (didUpdateSettings prevProps w)).

Definition componentWillUnmount (w : World) : World :=
  releaseSubscription w.

(** React hands the component its next props and then calls
    [componentDidUpdate] with the previous ones. *)
Definition receiveProps (p : Props) (w : World) : World :=
  componentDidUpdate (props w) (set_props p w).

(** The store of registry [r] moves to state [s] through an action of
    its own (an edit made in the editor) and notifies. *)
Definition storeChange (r : Registry) (s : StoreState) (w : World) : World :=
  notify r (set_store r s w).

(** A run of store changes on registry [r], each one notified. *)
Fixpoint storeChanges (r : Registry) (ss : list StoreState) (w : World)
    : World :=
  match ss with
  | [] => w
  | s :: ss' => storeChanges r ss' (storeChange r s w)
  end.

(** Whether the subscriber, run in [w], finds the blocks different. *)
Definition findsDifferent (w : World) : bool :=
  match listener w with
  | Some o => areBlocksDifferent (stores w (subscribedTo o)) o
  | None => false
  end.

(** No notification of the run finds the blocks different. *)
Fixpoint quiet (r : Registry) (ss : list StoreState) (w : World) : bool :=
  match ss with
  | [] => true
  | s :: ss' =>
      negb (findsDifferent (set_store r s w)) &&
      quiet r ss' (storeChange r s w)
  end.

End BlockEditorProvider.

(** The instance before it is mounted: nothing subscribed, no marker.
    [isSyncingOutcomingValue] is not assigned yet; nothing reads it before
    [componentDidMount] sets it to the empty array. *)
Definition constructed (p : Props) (st : Registry -> StoreState) : World :=
  {| props := p;
     isSyncingOutcomingValue := [];
     isSyncingIncomingValue := None;
     unsubscribe := None; listener := None;
     stores := st; trace := [] |}.

(** ** Reading a trace *)

Definition isResetBlocks (e : Event) : bool :=
  match e with EDispatch _ (ResetBlocks _) => true | _ => false end.

Definition isResetSelection (e : Event) : bool :=
  match e with EDispatch _ (ResetSelection _ _) => true | _ => false end.

(** A call of [onChange] or [onInput]. *)
Definition isEmission (e : Event) : bool :=
  match e with EOnChange _ _ _ _ | EOnInput _ _ _ _ => true | _ => false end.

(** ** A small store and a few worlds to run the component on *)

Definition blockA : Block := mkBlock "a" "core/paragraph" [].
Definition blockB : Block := mkBlock "b" "core/heading" [].

(** Arrays [10 = []], [11 = [A]], [12 = [A, B]] and [13], a second array
    with the content of [12]. *)
Definition sampleHeap (r : Ref) : list Block :=
  match r with
  | 11 => [blockA]
  | 12 => [blockA; blockB]
  | 13 => [blockA; blockB]
  | _ => []
  end.

(** A store that installs the array it is given and adopts a selection;
    it leaves its flags alone. *)
Definition sampleReduce (a : Action) (s : StoreState) : StoreState :=
  match a with
  | UpdateSettings _ => s
  | ResetBlocks v =>
      {| getBlocks := v;
         getSelectionStart := getSelectionStart s;
         getSelectionEnd := getSelectionEnd s;
         areAnyInnerBlocksControlled := areAnyInnerBlocksControlled s;
         isLastBlockChangePersistent := isLastBlockChangePersistent s;
         __unstableIsLastBlockChangeIgnored :=
           __unstableIsLastBlockChangeIgnored s |}
  | ResetSelection a b =>
      {| getBlocks := getBlocks s;
         getSelectionStart := a;
         getSelectionEnd := b;
         areAnyInnerBlocksControlled := areAnyInnerBlocksControlled s;
         isLastBlockChangePersistent := isLastBlockChangePersistent s;
         __unstableIsLastBlockChangeIgnored :=
           __unstableIsLastBlockChangeIgnored s |}
  end.

Definition sampleEnv : Environment :=
  {| deref := sampleHeap;
     reduce := sampleReduce;
     notifies := fun _ _ => true |}.

(** A store state holding array [b], selection [20..21], nothing ignored. *)
Definition sampleStore (b : Ref) (controlled persistent : bool) : StoreState :=
  {| getBlocks := b;
     getSelectionStart := 20;
     getSelectionEnd := 21;
     areAnyInnerBlocksControlled := controlled;
     isLastBlockChangePersistent := persistent;
     __unstableIsLastBlockChangeIgnored := false |}.

(** Props with value [v] on registry [1], both callbacks set. *)
Definition sampleProps (v : Ref) (selStart selEnd : option Ref) : Props :=
  {| settings := 30;
     value := v;
     selectionStart := selStart;
     selectionEnd := selEnd;
     registry := 1;
     onChange := Some 40;
     onInput := Some 41 |}.

(** A mounted component whose subscriber last saw array [seen], with echo
    queue [q] and marker [m], facing a store in state [s]. *)
Definition sampleWorld (v seen : Ref) (q : list Ref) (m : option Ref)
    (prevDifferent : bool) (s : StoreState) : World :=
  {| props := sampleProps v None None;
     isSyncingOutcomingValue := q;
     isSyncingIncomingValue := m;
     unsubscribe := Some 1;
     listener := Some {| subscribedTo := 1;
                         blocks := seen;
                         isPersistent := false;
                         previousAreBlocksDifferent := prevDifferent |};
     stores := fun _ => s;
     trace := [] |}.

(** ** Sessions *)

(** More ways to read a trace. *)
Definition isUpdateSettings (e : Event) : bool :=
  match e with EDispatch _ (UpdateSettings _) => true | _ => false end.

Definition isDispatch (e : Event) : bool :=
  match e with EDispatch _ _ => true | _ => false end.

Definition isSubscribe (e : Event) : bool :=
  match e with ESubscribe _ => true | _ => false end.

Definition isUnsubscribe (e : Event) : bool :=
  match e with EUnsubscribe => true | _ => false end.

(** What happens to a mounted component: React re-renders it with new
    props, or the store of some registry changes and notifies. *)
Inductive Input : Type :=
| Receive (p : Props)
| Change (r : Registry) (s : StoreState).

Section Sessions.

Context {env : Environment}.

Definition step (i : Input) (w : World) : World :=
  match i with
  | Receive p => receiveProps p w
  | Change r s => storeChange r s w
  end.

Fixpoint session (inputs : list Input) (w : World) : World :=
  match inputs with
  | [] => w
  | i :: inputs' => session inputs' (step i w)
  end.

End Sessions.

(** A dispatch to a store, or a call of [onChange] or [onInput]. *)
Definition isCall (e : Event) : bool := isDispatch e || isEmission e.

(** [this.unsubscribe] is set and the subscription is live on registry
    [r]. *)
Definition subscribedOn (r : Registry) (w : World) : Prop :=
  unsubscribe w <> None /\
  exists o, listener w = Some o /\ subscribedTo o = r.

(** The subscription is live on the registry of the current props. *)
Definition attached (w : World) : Prop :=
  subscribedOn (registry (props w)) w.

(** As many [subscribe] calls as disposer calls, plus [n]. *)
Definition subscriptionsOpen (n : nat) (evs : list Event) : Prop :=
  List.length (filter isSubscribe evs) =
  (n + List.length (filter isUnsubscribe evs))%nat.

(** An operation that keeps the props, [this.unsubscribe] and the
    registry of a live subscription, and adds nothing to the trace but
    dispatches and calls of [onChange] and [onInput]. *)
Definition keepsSubscription (op : World -> World) : Prop :=
  forall w,
    props (op w) = props w /\
    unsubscribe (op w) = unsubscribe w /\
    (forall o, listener w = Some o ->
       exists o', listener (op w) = Some o' /\
                  subscribedTo o' = subscribedTo o) /\
    exists evs, trace (op w) = trace w ++ evs /\
                forallb isCall evs = true.

(** * The table-of-contents block

    [TableOfContentsEdit] (table-of-contents/edit.js): the page the block
    is on, the part of the post content its headings are taken from, and
    the effect that keeps the [headings] state up to date. *)

Module TableOfContents.

(** The selectors of ['core/block-editor'] read by the page computation.
    [getBlockIndex] is a position in the block order, [-1] for a block
    that is not there; [getBlockName] is handed [blockOrder[ i ]], which
    is [undefined] past the end of the order, and answers [null] for
    what is not a block. *)
Record Selectors : Type := {
  getBlockIndex : string -> Z;
  getBlockName : option string -> option string;
  getBlockOrder : list string
}.

(** [getBlockName( ... ) === 'core/nextpage'] *)
Definition isNextpage (name : option string) : bool :=
  match name with
  | Some n => String.eqb n "core/nextpage"
  | None => false
  end.

(** The loop [for ( let i = 0; i < blockIndex; i++ )], at index [i] with
    [n] iterations to go. *)
Fixpoint countPages (sel : Selectors) (blockOrder : list string)
    (i n page : nat) : nat :=
  match n with
  | O => page
  | S n' =>
      countPages sel blockOrder (S i) n'
        (if isNextpage (getBlockName sel (nth_error blockOrder i))
         then S page else page)
  end.

Definition pageIndex (sel : Selectors) (clientId : string) : nat :=
  let blockIndex := getBlockIndex sel clientId in
  let blockOrder := getBlockOrder sel in
  countPages sel blockOrder 0 (Z.to_nat blockIndex) 1.

(** [s.split( separator )] for a separator that is not empty: the pieces
    of [s] between the occurrences of the separator, found from left to
    right; [skip] counts the characters of an occurrence still to be
    passed over.  The result is the first piece and the others. *)
Fixpoint splitFrom (separator s : string) (skip : nat)
    : string * list string :=
  match s with
  | EmptyString => (EmptyString, [])
  | String c s' =>
      match skip with
      | S k => splitFrom separator s' k
      | O =>
          if String.prefix separator s then
            let (piece, pieces) :=
              splitFrom separator s' (String.length separator - 1) in
            (EmptyString, piece :: pieces)
          else
            let (piece, pieces) := splitFrom separator s' 0 in
            (String c piece, pieces)
      end
  end.

(** [s.split( separator )]; an empty separator cuts between all
    characters. *)
Definition split (separator s : string) : list string :=
  match separator with
  | EmptyString =>
      map (fun c => String c EmptyString) (list_ascii_of_string s)
  | _ => let (piece, pieces) := splitFrom separator s 0 in piece :: pieces
  end.

(** [s.includes( separator )]. *)
Fixpoint includes (separator s : string) : bool :=
  String.prefix separator s ||
  match s with
  | EmptyString => false
  | String _ s' => includes separator s'
  end.

(** [s.slice( n )]: [s] without its first [n] characters. *)
Fixpoint slice (n : nat) (s : string) : string :=
  match n, s with
  | S n', String _ s' => slice n' s'
  | _, _ => s
  end.

(** [pieces.join( separator )]. *)
Definition join (separator : string) (pieces : list string) : string :=
  String.concat separator pieces.

(** What the component takes from [./utils] and from lodash:
    [getHeadingsFromContent], which is also called with [undefined] when
    the page asked for does not exist, and [isEqual]. *)
Class Utils : Type := {
  Heading : Type;
  getHeadingsFromContent : option string -> list Heading;
  isEqual : list Heading -> list Heading -> bool
}.

Section Effect.

Context {utils : Utils}.

(** [latestHeadings] as the effect computes it. *)
Definition latestHeadings (showOnlyCurrentPageHeadings : bool)
    (postContent : string) (pageIndex : nat) : list Heading :=
  if showOnlyCurrentPageHeadings then
    let pagesOfContent := split "<!--nextpage-->" postContent in
    getHeadingsFromContent (nth_error pagesOfContent (pageIndex - 1))
  else
    getHeadingsFromContent (Some postContent).

(** The effect: the [headings] state it leaves, and whether it called
    [setHeadings]. *)
Definition headingsEffect (headings : list Heading)
    (showOnlyCurrentPageHeadings : bool) (postContent : string)
    (pageIndex : nat) : list Heading * bool :=
  let latest :=
    latestHeadings showOnlyCurrentPageHeadings postContent pageIndex in
  if negb (isEqual headings latest) then (latest, true)
  else (headings, false).

End Effect.

(** Selectors over a list of (client id, block name) pairs, for the
    examples. *)
Definition sampleSelectors (blocks : list (string * string)) : Selectors :=
  {| getBlockIndex := fun id =>
       (fix indexOf (l : list (string * string)) (i : Z) : Z :=
          match l with
          | [] => (-1)%Z
          | (id', _) :: l' =>
              if String.eqb id' id then i else indexOf l' (i + 1)%Z
          end) blocks 0%Z;
     getBlockName := fun id =>
       match id with
       | Some id =>
           option_map snd
             (find (fun b => String.eqb (fst b) id) blocks)
       | None => None
       end;
     getBlockOrder := map fst blocks |}.

(** Headings as the lines of a page that start with [#]; equality of
    lists of strings for [isEqual]. *)
Definition sampleUtils : Utils :=
  {| Heading := string;
     getHeadingsFromContent := fun page =>
       match page with
       | Some s =>
           filter (String.prefix "#")
             (let (piece, pieces) := splitFrom "|" s 0 in piece :: pieces)
       | None => []
       end;
     isEqual := fun a b =>
       if list_eq_dec string_dec a b then true else false |}.

End TableOfContents.

(** * Properties *)

(** ** Structural equality of block trees *)

Lemma block_eqb_sound : forall a b, block_eqb a b = true -> a = b.
Proof.
  fix IH 1.
  intros [ca na ia] [cb nb ib]; simpl.
  rewrite !andb_true_iff; intros [[Hc Hn] Hi].
  apply String.eqb_eq in Hc; apply String.eqb_eq in Hn; subst cb nb.
  f_equal.
  revert ib Hi.
  induction ia as [|x xs IHxs]; intros [|y ys]; simpl;
    try discriminate; auto.
  rewrite andb_true_iff; intros [Hx Hr].
  f_equal; [apply IH; exact Hx | apply IHxs; exact Hr].
Qed.

Lemma block_eqb_refl : forall a, block_eqb a a = true.
Proof.
  fix IH 1.
  intros [ca na ia]; simpl.
  rewrite !String.eqb_refl; simpl.
  induction ia as [|x xs IHxs]; simpl; auto.
  rewrite IH; simpl; exact IHxs.
Qed.

Lemma blocks_eqb_eq (xs ys : list Block) :
  blocks_eqb xs ys = true <-> xs = ys.
Proof.
  split.
  - revert ys; induction xs as [|x xs IHxs]; intros [|y ys]; simpl;
      try discriminate; auto.
    rewrite andb_true_iff; intros [Hx Hr].
    f_equal; [apply block_eqb_sound; exact Hx | apply IHxs; exact Hr].
  - intros <-; induction xs as [|x xs IHxs]; simpl; auto.
    rewrite block_eqb_refl; exact IHxs.
Qed.

Lemma blocks_eqb_neq (xs ys : list Block) :
  blocks_eqb xs ys = false <-> xs <> ys.
Proof.
  rewrite <- blocks_eqb_eq; destruct (blocks_eqb xs ys); split;
    congruence.
Qed.

(** ** The subscriber *)

Section Subscriber.

Context {env : Environment}.

(** The subscriber keeps its subscription, on the same registry. *)
Lemma subscriber_listener (w : World) (o : Observer) :
  listener w = Some o ->
  exists o', listener (subscriber w) = Some o' /\
             subscribedTo o' = subscribedTo o.
Proof.
  intros Hl; unfold subscriber; rewrite Hl.
  repeat match goal with
         | |- context [if ?b then _ else _] => destruct b
         end; simpl; eexists; split; reflexivity.
Qed.

(** It touches neither the props nor any store. *)
Lemma subscriber_frame (w : World) :
  props (subscriber w) = props w /\
  stores (subscriber w) = stores w /\
  unsubscribe (subscriber w) = unsubscribe w.
Proof.
  unfold subscriber; destruct (listener w) as [o|]; [|auto].
  repeat match goal with
         | |- context [if ?b then _ else _] => destruct b
         end; simpl; auto.
Qed.

(** It makes at most one call, to [onChange] or to [onInput]. *)
Lemma subscriber_trace (w : World) :
  exists evs, trace (subscriber w) = trace w ++ evs /\
              forallb isEmission evs = true /\
              (List.length evs <= 1)%nat.
Proof.
  unfold subscriber; destruct (listener w) as [o|];
    [|exists []; rewrite app_nil_r; auto].
  repeat match goal with
         | |- context [if ?b then _ else _] => destruct b
         end; simpl;
    first [ exists []; rewrite app_nil_r; simpl; now auto
          | eexists [_]; simpl; now auto ].
Qed.

(** It never arms the marker: the marker is kept or cleared. *)
Lemma subscriber_marker (w : World) :
  isSyncingIncomingValue (subscriber w) = isSyncingIncomingValue w \/
  isSyncingIncomingValue (subscriber w) = None.
Proof.
  unfold subscriber; destruct (listener w) as [o|]; [|auto].
  repeat match goal with
         | |- context [if ?b then _ else _] => destruct b
         end; simpl; auto.
Qed.

(** It pushes onto the echo queue only when it found the blocks
    different and did not take the suppressed branch. *)
Lemma subscriber_queue_same (w : World) (o : Observer) :
  listener w = Some o ->
  areBlocksDifferent (stores w (subscribedTo o)) o = false \/
  truthy (isSyncingIncomingValue w) = true ->
  isSyncingOutcomingValue (subscriber w) = isSyncingOutcomingValue w.
Proof.
  intros Hl H; unfold subscriber; rewrite Hl.
  destruct H as [H|H]; rewrite H; simpl.
  - destruct (didPersistenceChange _ _); simpl;
      [destruct (isLastBlockChangePersistent _)|]; reflexivity.
  - destruct (areBlocksDifferent _ _); simpl; [reflexivity|].
    destruct (didPersistenceChange _ _); simpl;
      [destruct (isLastBlockChangePersistent _)|]; reflexivity.
Qed.

(** C4: the difference test compares what the two arrays point to,
    structurally, when the store reports controlled inner block areas,
    and compares the two references otherwise. *)
Theorem areBlocksDifferent_comparison (s : StoreState) (o : Observer) :
  areBlocksDifferent s o = true <->
  if areAnyInnerBlocksControlled s
  then deref (getBlocks s) <> deref (blocks o)
  else getBlocks s <> blocks o.
Proof.
  unfold areBlocksDifferent, isShallowEqual.
  destruct (areAnyInnerBlocksControlled s); rewrite negb_true_iff.
  - apply blocks_eqb_neq.
  - apply Pos.eqb_neq.
Qed.

(** C3: a notification that finds the blocks different while the marker
    is armed, or while the store reports the last change as ignored,
    clears the marker, takes the current blocks and persistence flag as
    the new snapshot, calls neither [onChange] nor [onInput] and leaves
    the echo queue as it was. *)
Theorem incoming_sync_is_suppressed (w : World) (o : Observer)
    (Hl : listener w = Some o)
    (Hdiff : areBlocksDifferent (stores w (subscribedTo o)) o = true)
    (Hsync : truthy (isSyncingIncomingValue w) = true \/
             __unstableIsLastBlockChangeIgnored
               (stores w (subscribedTo o)) = true) :
  isSyncingIncomingValue (subscriber w) = None /\
  (exists o', listener (subscriber w) = Some o' /\
     blocks o' = getBlocks (stores w (subscribedTo o)) /\
     isPersistent o' =
       isLastBlockChangePersistent (stores w (subscribedTo o))) /\
  trace (subscriber w) = trace w /\
  isSyncingOutcomingValue (subscriber w) = isSyncingOutcomingValue w.
Proof.
  unfold subscriber; rewrite Hl, Hdiff.
  assert (Hor : truthy (isSyncingIncomingValue w) ||
                __unstableIsLastBlockChangeIgnored
                  (stores w (subscribedTo o)) = true)
    by (apply orb_true_iff; exact Hsync).
  rewrite Hor; simpl.
  repeat split; eexists; repeat split; reflexivity.
Qed.

(** C8: a notification whose blocks equal the snapshot, under the
    comparison in force, and whose persistence flag equals the
    snapshot's, changes nothing but [previousAreBlocksDifferent], which
    becomes [false]: no call, no push, same snapshot, same marker. *)
Theorem unchanged_notification_is_noop (w : World) (o : Observer)
    (Hl : listener w = Some o)
    (Hsame : areBlocksDifferent (stores w (subscribedTo o)) o = false)
    (Hpers : isLastBlockChangePersistent (stores w (subscribedTo o)) =
             isPersistent o) :
  subscriber w =
    set_listener
      (Some {| subscribedTo := subscribedTo o;
               blocks := blocks o;
               isPersistent := isPersistent o;
               previousAreBlocksDifferent := false |}) w /\
  trace (subscriber w) = trace w /\
  isSyncingOutcomingValue (subscriber w) = isSyncingOutcomingValue w /\
  isSyncingIncomingValue (subscriber w) = isSyncingIncomingValue w.
Proof.
  assert (E : subscriber w =
    set_listener
      (Some {| subscribedTo := subscribedTo o;
               blocks := blocks o;
               isPersistent := isPersistent o;
               previousAreBlocksDifferent := false |}) w).
  { unfold subscriber, didPersistenceChange; rewrite Hl, Hsame, Hpers.
    simpl. destruct (isPersistent o); simpl;
      rewrite ?andb_false_r; reflexivity. }
  rewrite E; simpl; auto.
Qed.

(** C5, as amended: a notification that does not take the suppressed
    branch records, in [previousAreBlocksDifferent], the difference it
    computed; one that takes the suppressed branch returns before that
    assignment and leaves the recorded value as it was. *)
Theorem previous_flag_recorded_unless_suppressed (w : World) (o : Observer)
    (Hl : listener w = Some o) :
  exists o', listener (subscriber w) = Some o' /\
    previousAreBlocksDifferent o' =
      if areBlocksDifferent (stores w (subscribedTo o)) o &&
         (truthy (isSyncingIncomingValue w) ||
          __unstableIsLastBlockChangeIgnored (stores w (subscribedTo o)))
      then previousAreBlocksDifferent o
      else areBlocksDifferent (stores w (subscribedTo o)) o.
Proof.
  unfold subscriber; rewrite Hl.
  destruct (areBlocksDifferent _ o &&
            (truthy (isSyncingIncomingValue w) ||
             __unstableIsLastBlockChangeIgnored _)).
  - eexists; split; reflexivity.
  - destruct (areBlocksDifferent _ o || didPersistenceChange _ o);
      eexists; split; reflexivity.
Qed.

End Subscriber.

(** ** Dispatching *)

Section Dispatch.

Context {env : Environment}.

Lemma emissions_filter (f : Event -> bool) (evs : list Event) :
  (forall e, isEmission e = true -> f e = false) ->
  forallb isEmission evs = true ->
  filter f evs = [].
Proof.
  intros Hf; induction evs as [|e evs IH]; simpl; [reflexivity|].
  rewrite andb_true_iff; intros [He Hr].
  rewrite (Hf e He); apply IH; exact Hr.
Qed.

Lemma emissions_no_reset (evs : list Event) :
  forallb isEmission evs = true -> filter isResetBlocks evs = [].
Proof.
  apply emissions_filter; intros [r [| |]| | | |]; simpl; congruence.
Qed.

Lemma emissions_no_selection (evs : list Event) :
  forallb isEmission evs = true -> filter isResetSelection evs = [].
Proof.
  apply emissions_filter; intros [r [| |]| | | |]; simpl; congruence.
Qed.

Lemma emissions_not_dispatch (evs : list Event) (r : Registry) (a : Action) :
  forallb isEmission evs = true -> ~ In (EDispatch r a) evs.
Proof.
  intros H Hin; rewrite forallb_forall in H.
  specialize (H _ Hin); discriminate.
Qed.

Lemma notify_trace (r : Registry) (w : World) :
  exists evs, trace (notify r w) = trace w ++ evs /\
              forallb isEmission evs = true.
Proof.
  unfold notify; destruct (listener w) as [o|];
    [destruct (subscribedTo o =? r)|];
    try (exists []; rewrite app_nil_r; now auto).
  destruct (subscriber_trace w) as (evs & E & H & _); eauto.
Qed.

(** A dispatch logs its action; whatever follows it, before the call
    returns, is made of calls of [onChange] and [onInput]. *)
Lemma dispatch_trace (a : Action) (w : World) :
  exists evs,
    trace (dispatch a w) =
      trace w ++ EDispatch (registry (props w)) a :: evs /\
    forallb isEmission evs = true.
Proof.
  unfold dispatch; destruct (notifies a _).
  - destruct (notify_trace (registry (props w))
                (log (EDispatch (registry (props w)) a)
                   (set_store (registry (props w))
                      (reduce a (stores w (registry (props w)))) w)))
      as (evs & E & H).
    exists evs; split; [|exact H].
    rewrite E; simpl; rewrite <- app_assoc; reflexivity.
  - exists []; simpl; auto.
Qed.

Lemma notify_frame (r : Registry) (w : World) :
  props (notify r w) = props w /\ stores (notify r w) = stores w.
Proof.
  unfold notify; destruct (listener w) as [o|];
    [destruct (subscribedTo o =? r)|]; auto.
  destruct (subscriber_frame w) as (Hp & Hs & _); auto.
Qed.

Lemma dispatch_props (a : Action) (w : World) :
  props (dispatch a w) = props w.
Proof.
  unfold dispatch; destruct (notifies a _); [|reflexivity].
  rewrite (proj1 (notify_frame _ _)); reflexivity.
Qed.

(** A dispatch never arms the marker. *)
Lemma dispatch_marker (a : Action) (w : World) :
  isSyncingIncomingValue (dispatch a w) = isSyncingIncomingValue w \/
  isSyncingIncomingValue (dispatch a w) = None.
Proof.
  unfold dispatch; destruct (notifies a _); [|left; reflexivity].
  unfold notify; simpl.
  destruct (listener w) as [o|]; [|left; reflexivity].
  destruct (subscribedTo o =? _); [|left; reflexivity].
  match goal with |- context [subscriber ?x] =>
    destruct (subscriber_marker x) as [H|H]; rewrite H end; auto.
Qed.

(** While the marker is armed, a dispatch pushes nothing onto the echo
    queue. *)
Lemma dispatch_queue_armed (a : Action) (w : World) :
  truthy (isSyncingIncomingValue w) = true ->
  isSyncingOutcomingValue (dispatch a w) = isSyncingOutcomingValue w.
Proof.
  intros Hm; unfold dispatch; destruct (notifies a _); [|reflexivity].
  unfold notify; simpl.
  destruct (listener w) as [o|] eqn:Hl; [|reflexivity].
  destruct (subscribedTo o =? _); [|reflexivity].
  match goal with |- context [subscriber ?x] =>
    rewrite (subscriber_queue_same x o) end; auto.
Qed.

(** With no live subscription a dispatch only reaches the store. *)
Lemma dispatch_unobserved (a : Action) (w : World) :
  listener w = None ->
  dispatch a w =
    log (EDispatch (registry (props w)) a)
      (set_store (registry (props w))
         (reduce a (stores w (registry (props w)))) w).
Proof.
  intros Hl; unfold dispatch, notify; simpl; rewrite Hl.
  destruct (notifies a _); reflexivity.
Qed.

End Dispatch.

(** ** The inbound reset *)

Section InboundReset.

Context {env : Environment}.

(** The branch of [componentDidUpdate] taken by a value that is not in
    the echo queue and is not the previous value. *)
Lemma didUpdateValue_reset (prevProps : Props) (w : World) :
  includes (value (props w)) (isSyncingOutcomingValue w) = false ->
  value (props w) <> value prevProps ->
  didUpdateValue prevProps w =
    forwardSelection (props w)
      (resetBlocks (value (props w))
         (set_incoming (Some (value (props w))) (set_outcoming [] w))).
Proof.
  intros Hq Hv; unfold didUpdateValue; rewrite Hq.
  apply Pos.eqb_neq in Hv; rewrite Hv; reflexivity.
Qed.

(** What [forwardSelection] adds to the trace. *)
Lemma forwardSelection_trace (p : Props) (w : World) :
  props w = p ->
  exists evs,
    trace (forwardSelection p w) = trace w ++ evs /\
    filter isResetBlocks evs = [] /\
    match selectionStart p, selectionEnd p with
    | Some a, Some b =>
        filter isResetSelection evs =
          [EDispatch (registry p) (ResetSelection a b)]
    | _, _ => evs = []
    end.
Proof.
  intros Hp; unfold forwardSelection.
  destruct (selectionStart p) as [a|];
    [destruct (selectionEnd p) as [b|]|];
    try (exists []; rewrite app_nil_r; now auto).
  destruct (dispatch_trace (ResetSelection a b) w) as (evs & E & H).
  rewrite Hp in E.
  exists (EDispatch (registry p) (ResetSelection a b) :: evs).
  split; [exact E|]; simpl.
  rewrite (emissions_no_reset _ H), (emissions_no_selection _ H); auto.
Qed.

(** C1: a value that is not in the echo queue and is not the previous
    value makes the component empty the echo queue, set the marker to
    that value and then call [resetBlocks] with it: the call starts from
    the world [armed], whose queue is empty and whose marker is the
    value, the queue is still empty when the call returns, and the update
    makes exactly one [resetBlocks] call, the one with the new value. *)
Theorem genuine_change_resets_once (prevProps : Props) (w : World)
    (Hq : includes (value (props w)) (isSyncingOutcomingValue w) = false)
    (Hv : value (props w) <> value prevProps) :
  let v := value (props w) in
  let armed := set_incoming (Some v) (set_outcoming [] w) in
  isSyncingOutcomingValue armed = [] /\
  isSyncingIncomingValue armed = Some v /\
  didUpdateValue prevProps w =
    forwardSelection (props w) (resetBlocks v armed) /\
  isSyncingOutcomingValue (resetBlocks v armed) = [] /\
  exists evs,
    trace (didUpdateValue prevProps w) = trace w ++ evs /\
    filter isResetBlocks evs = [EDispatch (registry (props w)) (ResetBlocks v)].
Proof.
  intros v armed.
  destruct (dispatch_trace (ResetBlocks v) armed) as (evs1 & E1 & H1).
  destruct (forwardSelection_trace (props w) (resetBlocks v armed))
    as (evs2 & E2 & H2 & _).
  { unfold resetBlocks; rewrite dispatch_props; reflexivity. }
  split; [reflexivity|]. split; [reflexivity|].
  split; [apply didUpdateValue_reset; assumption|].
  split; [unfold resetBlocks; rewrite dispatch_queue_armed; reflexivity|].
  exists (EDispatch (registry (props w)) (ResetBlocks v) :: evs1 ++ evs2).
  split.
  - rewrite (didUpdateValue_reset prevProps w Hq Hv).
    fold v armed. rewrite E2. unfold resetBlocks. rewrite E1.
    simpl. rewrite <- app_assoc. reflexivity.
  - simpl. rewrite filter_app, (emissions_no_reset _ H1), H2. reflexivity.
Qed.

(** C2: a value found in the echo queue causes no call at all, so no
    [resetBlocks], and leaves stores, marker and subscription alone; the
    queue is emptied when the value is its last entry and is left as it
    is when the value is only among the earlier ones. *)
Theorem echo_skips_reset (prevProps : Props) (w : World)
    (Hin : includes (value (props w)) (isSyncingOutcomingValue w) = true) :
  trace (didUpdateValue prevProps w) = trace w /\
  stores (didUpdateValue prevProps w) = stores w /\
  isSyncingIncomingValue (didUpdateValue prevProps w) =
    isSyncingIncomingValue w /\
  listener (didUpdateValue prevProps w) = listener w /\
  (lodash.last (isSyncingOutcomingValue w) = Some (value (props w)) ->
   isSyncingOutcomingValue (didUpdateValue prevProps w) = []) /\
  (lodash.last (isSyncingOutcomingValue w) <> Some (value (props w)) ->
   isSyncingOutcomingValue (didUpdateValue prevProps w) =
     isSyncingOutcomingValue w).
Proof.
  unfold didUpdateValue; rewrite Hin.
  destruct (lodash.last (isSyncingOutcomingValue w)) as [x|] eqn:Hlast.
  - destruct (Pos.eqb_spec x (value (props w))) as [->|Hne]; simpl;
      repeat split; auto; try congruence.
  - repeat split; auto; congruence.
Qed.

(** X22: an inbound reset made by [componentDidUpdate] calls
    [resetSelection] exactly when both [selectionStart] and
    [selectionEnd] are set, once and with that pair; with one or both
    missing it makes no such call, and it returns a world in every
    case. *)
Theorem selection_forwarded_iff_both (prevProps : Props) (w : World)
    (Hq : includes (value (props w)) (isSyncingOutcomingValue w) = false)
    (Hv : value (props w) <> value prevProps) :
  exists evs,
    trace (didUpdateValue prevProps w) = trace w ++ evs /\
    (forall a b,
       selectionStart (props w) = Some a ->
       selectionEnd (props w) = Some b ->
       filter isResetSelection evs =
         [EDispatch (registry (props w)) (ResetSelection a b)]) /\
    (selectionStart (props w) = None \/ selectionEnd (props w) = None ->
     filter isResetSelection evs = []).
Proof.
  set (v := value (props w)).
  set (armed := set_incoming (Some v) (set_outcoming [] w)).
  destruct (dispatch_trace (ResetBlocks v) armed) as (evs1 & E1 & H1).
  destruct (forwardSelection_trace (props w) (resetBlocks v armed))
    as (evs2 & E2 & _ & H2).
  { unfold resetBlocks; rewrite dispatch_props; reflexivity. }
  exists (EDispatch (registry (props w)) (ResetBlocks v) :: evs1 ++ evs2).
  split; [|split].
  - rewrite (didUpdateValue_reset prevProps w Hq Hv).
    fold v armed. rewrite E2. unfold resetBlocks. rewrite E1.
    simpl. rewrite <- app_assoc. reflexivity.
  - intros a b Ha Hb; rewrite Ha, Hb in H2; simpl.
    rewrite filter_app, (emissions_no_selection _ H1), H2. reflexivity.
  - intros Hnone; simpl.
    rewrite filter_app, (emissions_no_selection _ H1); simpl.
    destruct Hnone as [Hn|Hn]; rewrite Hn in H2.
    + rewrite H2; reflexivity.
    + destruct (selectionStart (props w)); rewrite H2; reflexivity.
Qed.

(** An update that changes neither the settings nor the registry is
    the value step alone. *)
Lemma componentDidUpdate_value_only (prevProps : Props) (w : World) :
  settings (props w) = settings prevProps ->
  registry (props w) = registry prevProps ->
  componentDidUpdate prevProps w = didUpdateValue prevProps w.
Proof.
  intros Hs Hr; unfold componentDidUpdate, didUpdateSettings.
  rewrite Hs, Pos.eqb_refl; unfold didUpdateRegistry.
  rewrite Hr, Pos.eqb_refl; reflexivity.
Qed.

(** After unmounting, a store that notifies reaches nobody. *)
Lemma unmounted_is_deaf (r : Registry) (w : World) :
  unsubscribe w <> None ->
  notify r (componentWillUnmount w) = componentWillUnmount w.
Proof.
  unfold componentWillUnmount, releaseSubscription, notify.
  destruct (unsubscribe w); [reflexivity | congruence].
Qed.

End InboundReset.

(** ** Activation *)

Section Activation.

Context {env : Environment}.

(** C10: mounting dispatches [updateSettings], then [resetBlocks] with
    the value, and only then subscribes; the snapshot the subscriber
    starts from is read from the store as that reset left it; no call of
    [onChange] or [onInput] is made. *)
Theorem mount_is_silent (w : World)
    (Hl : listener w = None) (Hu : unsubscribe w = None) :
  let p := props w in
  let r := registry p in
  let afterReset :=
    reduce (ResetBlocks (value p))
      (reduce (UpdateSettings (settings p)) (stores w r)) in
  trace (componentDidMount w) =
    trace w ++ [EDispatch r (UpdateSettings (settings p));
                EDispatch r (ResetBlocks (value p));
                ESubscribe r] /\
  listener (componentDidMount w) =
    Some {| subscribedTo := r;
            blocks := getBlocks afterReset;
            isPersistent := isLastBlockChangePersistent afterReset;
            previousAreBlocksDifferent := false |} /\
  isSyncingOutcomingValue (componentDidMount w) = [] /\
  forall evs, trace (componentDidMount w) = trace w ++ evs ->
              filter isEmission evs = [].
Proof.
  intros p r afterReset.
  assert (E : componentDidMount w =
    set_outcoming []
      (attachChangeObserver r
         (log (EDispatch r (ResetBlocks (value p)))
            (set_store r afterReset
               (log (EDispatch r (UpdateSettings (settings p)))
                  (set_store r
                     (reduce (UpdateSettings (settings p)) (stores w r))
                     w)))))).
  { unfold componentDidMount, updateSettings, resetBlocks.
    fold p. rewrite (dispatch_unobserved _ w Hl). fold p r.
    rewrite dispatch_unobserved by exact Hl.
    simpl. rewrite Pos.eqb_refl. reflexivity. }
  assert (T : trace (componentDidMount w) =
    trace w ++ [EDispatch r (UpdateSettings (settings p));
                EDispatch r (ResetBlocks (value p));
                ESubscribe r]).
  { rewrite E; unfold attachChangeObserver, releaseSubscription; simpl.
    rewrite Hu; simpl. rewrite <- !app_assoc. reflexivity. }
  split; [exact T|]. split; [|split].
  - rewrite E; unfold attachChangeObserver, releaseSubscription; simpl.
    rewrite Hu; simpl. rewrite Pos.eqb_refl. reflexivity.
  - rewrite E; reflexivity.
  - intros evs Hevs. rewrite T in Hevs.
    apply app_inv_head in Hevs. subst evs. reflexivity.
Qed.

End Activation.

(** ** The life of the marker *)

Section Marker.

Context {env : Environment}.

Lemma subscriber_marker_kept (w : World) :
  findsDifferent w = false ->
  isSyncingIncomingValue (subscriber w) = isSyncingIncomingValue w.
Proof.
  unfold findsDifferent, subscriber.
  destruct (listener w) as [o|]; [|reflexivity].
  intros ->; simpl.
  destruct (didPersistenceChange _ o); simpl;
    [destruct (isLastBlockChangePersistent _)|]; reflexivity.
Qed.

Lemma subscriber_marker_cleared (w : World) :
  findsDifferent w = true ->
  truthy (isSyncingIncomingValue w) = true ->
  isSyncingIncomingValue (subscriber w) = None.
Proof.
  unfold findsDifferent, subscriber.
  destruct (listener w) as [o|]; [|discriminate].
  intros -> ->; reflexivity.
Qed.

Lemma storeChange_subscribed (r : Registry) (s : StoreState) (w : World)
    (o : Observer) :
  listener w = Some o ->
  subscribedTo o = r ->
  storeChange r s w = subscriber (set_store r s w).
Proof.
  intros Hl Hr; unfold storeChange, notify; simpl.
  rewrite Hl, Hr, Pos.eqb_refl; reflexivity.
Qed.

(** A run of notifications none of which finds the blocks different
    leaves the marker alone, and the subscription in place. *)
Lemma quiet_run_keeps_marker (r : Registry) (ss : list StoreState) :
  forall (w : World) (o : Observer),
    listener w = Some o ->
    subscribedTo o = r ->
    quiet r ss w = true ->
    isSyncingIncomingValue (storeChanges r ss w) =
      isSyncingIncomingValue w /\
    exists o', listener (storeChanges r ss w) = Some o' /\
               subscribedTo o' = r.
Proof.
  induction ss as [|s ss IH]; intros w o Hl Hr Hq; simpl in *.
  - split; [reflexivity|]; exists o; auto.
  - apply andb_true_iff in Hq; destruct Hq as [Hs Hq].
    apply negb_true_iff in Hs.
    rewrite (storeChange_subscribed r s w o Hl Hr) in *.
    destruct (subscriber_listener (set_store r s w) o Hl)
      as (o1 & Hl1 & Hr1).
    rewrite Hr in Hr1.
    destruct (IH _ o1 Hl1 Hr1 Hq) as (Hm & o2 & Hl2 & Hr2).
    split.
    + rewrite Hm, (subscriber_marker_kept _ Hs); reflexivity.
    + exists o2; auto.
Qed.

(** C7, as amended: the marker is a single field holding at most one
    reference.  Once armed it stays armed through every notification that
    finds the blocks not different, and the first notification that finds
    them different clears it.  An inbound reset arriving in between
    replaces it: [resetBlocks] is called with the marker set to the new
    value, and afterwards the marker is that value or is cleared. *)
Theorem marker_cleared_by_first_different_notification
    (w : World) (o : Observer) (m : Ref)
    (ss : list StoreState) (s : StoreState)
    (Hl : listener w = Some o)
    (Hm : isSyncingIncomingValue w = Some m)
    (Hquiet : quiet (subscribedTo o) ss w = true)
    (Hdiff : findsDifferent
               (set_store (subscribedTo o) s
                  (storeChanges (subscribedTo o) ss w)) = true) :
  isSyncingIncomingValue (storeChanges (subscribedTo o) ss w) = Some m /\
  isSyncingIncomingValue
    (storeChange (subscribedTo o) s (storeChanges (subscribedTo o) ss w)) =
    None /\
  forall prevProps : Props,
    includes (value (props w)) (isSyncingOutcomingValue w) = false ->
    value (props w) <> value prevProps ->
    exists armed,
      isSyncingIncomingValue armed = Some (value (props w)) /\
      didUpdateValue prevProps w =
        forwardSelection (props w) (resetBlocks (value (props w)) armed) /\
      (isSyncingIncomingValue (didUpdateValue prevProps w) =
         Some (value (props w)) \/
       isSyncingIncomingValue (didUpdateValue prevProps w) = None).
Proof.
  destruct (quiet_run_keeps_marker (subscribedTo o) ss w o Hl eq_refl Hquiet)
    as (Hkept & o' & Hl' & Hr').
  split; [rewrite Hkept; exact Hm|]. split.
  - rewrite (storeChange_subscribed _ s _ o' Hl' Hr').
    apply subscriber_marker_cleared; [exact Hdiff|].
    simpl; rewrite Hkept, Hm; reflexivity.
  - intros prevProps Hq Hv.
    exists (set_incoming (Some (value (props w))) (set_outcoming [] w)).
    split; [reflexivity|].
    split; [apply didUpdateValue_reset; assumption|].
    rewrite (didUpdateValue_reset prevProps w Hq Hv).
    unfold forwardSelection, resetBlocks, resetSelection.
    match goal with |- context [dispatch (ResetBlocks ?v) ?x] =>
      destruct (dispatch_marker (ResetBlocks v) x) as [H1|H1] end;
      simpl in H1;
      destruct (selectionStart (props w)) as [a|];
      try destruct (selectionEnd (props w)) as [b|]; auto;
      match goal with |- context [dispatch (ResetSelection ?a ?b) ?x] =>
        destruct (dispatch_marker (ResetSelection a b) x) as [H2|H2] end;
      rewrite H2; auto.
Qed.

End Marker.

(** ** Promotion of a transient change *)

Section Promotion.

Context {env : Environment}.

(** C6, as amended: when a notification that finds the blocks different
    with the persistence flag unset runs with the marker unarmed and the
    change not ignored, it calls [onInput]; if the next notification finds
    the blocks not different and the persistence flag set, it makes
    exactly one call, [onChange] and not [onInput], with the current
    array, which points to the block tree passed to [onInput] and is that
    very array when no inner block areas are controlled. *)
Theorem persistence_promotion (w0 wmid : World) (o : Observer)
    (Hl : listener w0 = Some o)
    (Hdiff : findsDifferent w0 = true)
    (Htransient :
       isLastBlockChangePersistent (stores w0 (subscribedTo o)) = false)
    (Hunarmed : isSyncingIncomingValue w0 = None)
    (Hcounted :
       __unstableIsLastBlockChangeIgnored (stores w0 (subscribedTo o)) =
       false)
    (Hmid : listener wmid = listener (subscriber w0))
    (Hsame : findsDifferent wmid = false)
    (Hpersistent :
       isLastBlockChangePersistent (stores wmid (subscribedTo o)) = true) :
  let s1 := stores w0 (subscribedTo o) in
  let s2 := stores wmid (subscribedTo o) in
  trace (subscriber w0) =
    trace w0 ++ [EOnInput (onInput (props w0)) (getBlocks s1)
                   (getSelectionStart s1) (getSelectionEnd s1)] /\
  trace (subscriber wmid) =
    trace wmid ++ [EOnChange (onChange (props wmid)) (getBlocks s2)
                     (getSelectionStart s2) (getSelectionEnd s2)] /\
  deref (getBlocks s2) = deref (getBlocks s1) /\
  (areAnyInnerBlocksControlled s2 = false -> getBlocks s2 = getBlocks s1).
Proof.
  intros s1 s2.
  unfold findsDifferent in Hdiff; rewrite Hl in Hdiff; fold s1 in Hdiff.
  assert (E1 : subscriber w0 =
    set_listener
      (Some {| subscribedTo := subscribedTo o;
               blocks := getBlocks s1;
               isPersistent := false;
               previousAreBlocksDifferent := true |})
      (log (EOnInput (onInput (props w0)) (getBlocks s1)
              (getSelectionStart s1) (getSelectionEnd s1))
         (set_outcoming (push (getBlocks s1) (isSyncingOutcomingValue w0))
            w0))).
  { unfold subscriber; rewrite Hl; fold s1.
    rewrite Hdiff, Hunarmed; fold s1 in Hcounted, Htransient.
    rewrite Hcounted, Htransient; reflexivity. }
  rewrite E1 in Hmid; simpl in Hmid.
  unfold findsDifferent in Hsame; rewrite Hmid in Hsame; simpl in Hsame.
  fold s2 in Hsame, Hpersistent.
  split; [rewrite E1; reflexivity|]. split; [|split].
  - unfold subscriber, didPersistenceChange; rewrite Hmid; simpl.
    fold s2; rewrite Hsame, Hpersistent; reflexivity.
  - unfold areBlocksDifferent, isShallowEqual in Hsame; simpl in Hsame.
    destruct (areAnyInnerBlocksControlled s2);
      apply negb_false_iff in Hsame.
    + apply blocks_eqb_eq; exact Hsame.
    + apply Pos.eqb_eq in Hsame; rewrite Hsame; reflexivity.
  - intros Hc; unfold areBlocksDifferent in Hsame; rewrite Hc in Hsame.
    apply negb_false_iff in Hsame; apply Pos.eqb_eq; exact Hsame.
Qed.

End Promotion.

(** ** The properties at work on the sample store *)

(** C3 at work: array [11] arrives in a store whose subscriber last saw
    [10], while the marker is armed with [11]. *)
Lemma incoming_sync_is_suppressed_witness :
  let w := sampleWorld 11 10 [] (Some 11) false (sampleStore 11 false false) in
  isSyncingIncomingValue (subscriber (env := sampleEnv) w) = None /\
  trace (subscriber (env := sampleEnv) w) = trace w.
Proof.
  intros w.
  pose proof (incoming_sync_is_suppressed (env := sampleEnv) w
                {| subscribedTo := 1; blocks := 10; isPersistent := false;
                   previousAreBlocksDifferent := false |}
                eq_refl eq_refl (or_introl eq_refl)) as (Hm & _ & Ht & _).
  split; [exact Hm | exact Ht].
Defined.

(** C8 at work: the store notifies while it still holds array [11]. *)
Lemma unchanged_notification_is_noop_witness :
  let w := sampleWorld 11 11 [11] None true (sampleStore 11 false false) in
  trace (subscriber (env := sampleEnv) w) = trace w /\
  isSyncingOutcomingValue (subscriber (env := sampleEnv) w) = [11].
Proof.
  intros w.
  pose proof (unchanged_notification_is_noop (env := sampleEnv) w
                {| subscribedTo := 1; blocks := 11; isPersistent := false;
                   previousAreBlocksDifferent := true |}
                eq_refl eq_refl eq_refl) as (_ & Ht & Hq & _).
  split; [exact Ht | exact Hq].
Defined.

(** C5 as stated fails: in the suppressed branch the blocks are found
    different, yet [previousAreBlocksDifferent] keeps its [false]. *)
Lemma suppressed_notification_keeps_previous_flag :
  let w := sampleWorld 11 10 [] (Some 11) false (sampleStore 11 false false) in
  findsDifferent (env := sampleEnv) w = true /\
  option_map previousAreBlocksDifferent
    (listener (subscriber (env := sampleEnv) w)) = Some false.
Proof. split; reflexivity. Qed.

(** C5, as amended, at work: array [11] arrives with the marker unarmed. *)
Lemma previous_flag_recorded_unless_suppressed_witness :
  let w := sampleWorld 11 10 [] None false (sampleStore 11 false false) in
  exists o', listener (subscriber (env := sampleEnv) w) = Some o' /\
             previousAreBlocksDifferent o' = true.
Proof.
  intros w.
  exact (previous_flag_recorded_unless_suppressed (env := sampleEnv) w
           {| subscribedTo := 1; blocks := 10; isPersistent := false;
              previousAreBlocksDifferent := false |} eq_refl).
Defined.

(** C1 at work: the host replaces value [10] by [11]. *)
Lemma genuine_change_resets_once_witness :
  let w := sampleWorld 11 10 [12] None false (sampleStore 10 false false) in
  exists evs,
    trace (didUpdateValue (env := sampleEnv) (sampleProps 10 None None) w) =
      trace w ++ evs /\
    filter isResetBlocks evs = [EDispatch 1 (ResetBlocks 11)].
Proof.
  intros w.
  destruct (genuine_change_resets_once (env := sampleEnv)
              (sampleProps 10 None None) w eq_refl)
    as (_ & _ & _ & _ & evs & Ht & Hr).
  - simpl; discriminate.
  - exists evs; split; [exact Ht | exact Hr].
Defined.

(** C2 at work: the host hands back [12], the last array emitted. *)
Lemma echo_skips_reset_witness :
  let w := sampleWorld 12 12 [11; 12] None true (sampleStore 12 false false) in
  trace (didUpdateValue (env := sampleEnv) (sampleProps 11 None None) w) =
    trace w /\
  isSyncingOutcomingValue
    (didUpdateValue (env := sampleEnv) (sampleProps 11 None None) w) = [].
Proof.
  intros w.
  pose proof (echo_skips_reset (env := sampleEnv)
                (sampleProps 11 None None) w eq_refl)
    as (Ht & _ & _ & _ & Hlast & _).
  split; [exact Ht | exact (Hlast eq_refl)].
Defined.

(** X22 at work: only [selectionStart] is supplied with the new value. *)
Lemma selection_forwarded_iff_both_witness :
  let w := set_props (sampleProps 11 (Some 22) None)
             (sampleWorld 10 10 [] None false (sampleStore 10 false false)) in
  exists evs,
    trace (didUpdateValue (env := sampleEnv) (sampleProps 10 None None) w) =
      trace w ++ evs /\
    filter isResetSelection evs = [].
Proof.
  intros w.
  destruct (selection_forwarded_iff_both (env := sampleEnv)
              (sampleProps 10 None None) w eq_refl)
    as (evs & Ht & _ & Hnone).
  - simpl; discriminate.
  - exists evs; split; [exact Ht | exact (Hnone (or_intror eq_refl))].
Defined.

(** C10 at work: mounting on a store that holds another array. *)
Lemma mount_is_silent_witness :
  let w := constructed (sampleProps 11 None None)
             (fun _ => sampleStore 10 false false) in
  trace (componentDidMount (env := sampleEnv) w) =
    [EDispatch 1 (UpdateSettings 30); EDispatch 1 (ResetBlocks 11);
     ESubscribe 1] /\
  option_map blocks (listener (componentDidMount (env := sampleEnv) w)) =
    Some 11.
Proof.
  intros w.
  pose proof (mount_is_silent (env := sampleEnv) w eq_refl eq_refl)
    as (Ht & Hl & _).
  split; [exact Ht | rewrite Hl; reflexivity].
Defined.

(** C7 as stated fails: with inner block areas controlled the host
    supplies [13], a fresh array with the content of the current [12].
    The notification caused by the reset runs while the marker is armed,
    finds the blocks not different and leaves the marker armed; it is
    still armed when [componentDidUpdate] returns. *)
Lemma armed_marker_survives_equal_blocks :
  let w := sampleWorld 13 12 [] (Some 13) false (sampleStore 13 true false) in
  isSyncingIncomingValue w = Some 13 /\
  isSyncingIncomingValue (notify (env := sampleEnv) 1 w) = Some 13 /\
  isSyncingIncomingValue
    (receiveProps (env := sampleEnv) (sampleProps 13 None None)
       (sampleWorld 12 12 [] None false (sampleStore 12 true false))) =
    Some 13.
Proof. repeat split; reflexivity. Qed.

(** C7, as amended, at work: armed with [11], the marker survives a
    notification for unchanged blocks and is cleared by the next one,
    which brings array [12]. *)
Lemma marker_cleared_by_first_different_notification_witness :
  let w := sampleWorld 11 11 [] (Some 11) false (sampleStore 11 false false) in
  isSyncingIncomingValue
    (storeChanges (env := sampleEnv) 1 [sampleStore 11 false true] w) =
    Some 11 /\
  isSyncingIncomingValue
    (storeChange (env := sampleEnv) 1 (sampleStore 12 false false)
       (storeChanges (env := sampleEnv) 1 [sampleStore 11 false true] w)) =
    None.
Proof.
  intros w.
  pose proof (marker_cleared_by_first_different_notification
                (env := sampleEnv) w
                {| subscribedTo := 1; blocks := 11; isPersistent := false;
                   previousAreBlocksDifferent := false |}
                11 [sampleStore 11 false true] (sampleStore 12 false false)
                eq_refl eq_refl eq_refl eq_refl) as (Hkept & Hcleared & _).
  split; [exact Hkept | exact Hcleared].
Defined.

(** C6 as stated fails: the first notification finds the blocks
    different with the persistence flag unset, but the marker is armed
    and the change is suppressed; the second finds them not different
    with the flag set, and calls nothing. *)
Lemma promotion_missing_after_suppressed_change :
  let w0 := sampleWorld 11 10 [] (Some 11) false (sampleStore 11 false false) in
  let wmid := set_store 1 (sampleStore 11 false true)
                (subscriber (env := sampleEnv) w0) in
  findsDifferent (env := sampleEnv) w0 = true /\
  isLastBlockChangePersistent (stores w0 1) = false /\
  findsDifferent (env := sampleEnv) wmid = false /\
  isLastBlockChangePersistent (stores wmid 1) = true /\
  trace (subscriber (env := sampleEnv) wmid) = trace wmid.
Proof. repeat split; reflexivity. Qed.

(** C6, as amended, at work: a transient edit brings [12], then the
    change is marked persistent. *)
Lemma persistence_promotion_witness :
  let w0 := sampleWorld 11 11 [] None false (sampleStore 12 false false) in
  let wmid := set_store 1 (sampleStore 12 false true)
                (subscriber (env := sampleEnv) w0) in
  trace (subscriber (env := sampleEnv) w0) = [EOnInput (Some 41) 12 20 21] /\
  trace (subscriber (env := sampleEnv) wmid) =
    [EOnInput (Some 41) 12 20 21; EOnChange (Some 40) 12 20 21].
Proof.
  intros w0 wmid.
  pose proof (persistence_promotion (env := sampleEnv) w0 wmid
                {| subscribedTo := 1; blocks := 11; isPersistent := false;
                   previousAreBlocksDifferent := false |}
                eq_refl eq_refl eq_refl eq_refl eq_refl eq_refl eq_refl
                eq_refl) as (H1 & H2 & _).
  split; [exact H1 | exact H2].
Defined.

(** The scenario of the specification, run on the sample store: mount
    with [[]], the host sets [[A]], an edit yields the transient [[A, B]],
    the change is marked persistent, the host hands [[A, B]] back. *)
Example scenario_trace :
  let mounted :=
    componentDidMount (env := sampleEnv)
      (constructed (sampleProps 10 None None)
         (fun _ => sampleStore 10 false false)) in
  let reset := receiveProps (env := sampleEnv) (sampleProps 11 None None)
                 mounted in
  let edited := storeChange (env := sampleEnv) 1 (sampleStore 12 false false)
                  reset in
  let saved := storeChange (env := sampleEnv) 1 (sampleStore 12 false true)
                 edited in
  let echoed := receiveProps (env := sampleEnv) (sampleProps 12 None None)
                  saved in
  trace echoed =
    [EDispatch 1 (UpdateSettings 30); EDispatch 1 (ResetBlocks 10);
     ESubscribe 1; EDispatch 1 (ResetBlocks 11);
     EOnInput (Some 41) 12 20 21; EOnChange (Some 40) 12 20 21] /\
  isSyncingOutcomingValue saved = [12] /\
  isSyncingOutcomingValue echoed = [] /\
  isSyncingIncomingValue echoed = None.
Proof. repeat split; reflexivity. Qed.

(** * Further properties of the component *)

(** ** The echo queue and the subscriber's branches *)

Section Emission.

Context {env : Environment}.

Lemma includes_push (v : Ref) (l : list Ref) :
  includes v (push v l) = true.
Proof.
  unfold includes, push; rewrite existsb_app; simpl.
  rewrite Pos.eqb_refl, orb_true_r; reflexivity.
Qed.

Lemma last_push (v : Ref) (l : list Ref) :
  lodash.last (push v l) = Some v.
Proof.
  unfold push; induction l as [|x l IH]; simpl; [reflexivity|].
  destruct (l ++ [v]) eqn:E; [destruct l; discriminate | exact IH].
Qed.

(** The difference test only looks at the array of the snapshot, and an
    array is never different from itself. *)
Lemma areBlocksDifferent_same (s : StoreState) (o : Observer) :
  blocks o = getBlocks s -> areBlocksDifferent s o = false.
Proof.
  intros E; unfold areBlocksDifferent, isShallowEqual; rewrite E.
  destruct (areAnyInnerBlocksControlled s); apply negb_false_iff.
  - apply blocks_eqb_eq; reflexivity.
  - apply Pos.eqb_refl.
Qed.

Lemma areBlocksDifferent_blocks (s : StoreState) (o o' : Observer) :
  blocks o' = blocks o -> areBlocksDifferent s o' = areBlocksDifferent s o.
Proof. intros E; unfold areBlocksDifferent; rewrite E; reflexivity. Qed.

(** The emission branch taken for different blocks. *)
Lemma subscriber_emits (w : World) (o : Observer) :
  listener w = Some o ->
  areBlocksDifferent (stores w (subscribedTo o)) o = true ->
  isSyncingIncomingValue w = None ->
  __unstableIsLastBlockChangeIgnored (stores w (subscribedTo o)) = false ->
  subscriber w =
    set_listener
      (Some {| subscribedTo := subscribedTo o;
               blocks := getBlocks (stores w (subscribedTo o));
               isPersistent :=
                 isLastBlockChangePersistent (stores w (subscribedTo o));
               previousAreBlocksDifferent := true |})
      (log (if isLastBlockChangePersistent (stores w (subscribedTo o))
            then EOnChange (onChange (props w))
                   (getBlocks (stores w (subscribedTo o)))
                   (getSelectionStart (stores w (subscribedTo o)))
                   (getSelectionEnd (stores w (subscribedTo o)))
            else EOnInput (onInput (props w))
                   (getBlocks (stores w (subscribedTo o)))
                   (getSelectionStart (stores w (subscribedTo o)))
                   (getSelectionEnd (stores w (subscribedTo o))))
         (set_outcoming
            (push (getBlocks (stores w (subscribedTo o)))
               (isSyncingOutcomingValue w)) w)).
Proof.
  intros Hl Hd Hm Hi; unfold subscriber; rewrite Hl, Hd, Hm, Hi; simpl.
  destruct (isLastBlockChangePersistent _); reflexivity.
Qed.

(** The branch taken when nothing is to be reported. *)
Lemma subscriber_idles (w : World) (o : Observer) :
  listener w = Some o ->
  areBlocksDifferent (stores w (subscribedTo o)) o = false ->
  didPersistenceChange (stores w (subscribedTo o)) o = false ->
  subscriber w =
    set_listener
      (Some {| subscribedTo := subscribedTo o;
               blocks := blocks o;
               isPersistent := isPersistent o;
               previousAreBlocksDifferent := false |}) w.
Proof.
  intros Hl Hd Hp; unfold subscriber; rewrite Hl, Hd, Hp; reflexivity.
Qed.

(** X1: a notification that finds the blocks different, with the marker
    unarmed and the change not ignored, makes exactly one call: [onChange]
    when the store reports the change persistent, [onInput] otherwise,
    with the store's current array and selection.  That array becomes the
    last entry of the echo queue and the new snapshot. *)
Theorem different_blocks_are_emitted (w : World) (o : Observer)
    (Hl : listener w = Some o)
    (Hdiff : areBlocksDifferent (stores w (subscribedTo o)) o = true)
    (Hunarmed : isSyncingIncomingValue w = None)
    (Hcounted :
       __unstableIsLastBlockChangeIgnored (stores w (subscribedTo o)) =
       false) :
  let s := stores w (subscribedTo o) in
  trace (subscriber w) =
    trace w ++
    [if isLastBlockChangePersistent s
     then EOnChange (onChange (props w)) (getBlocks s)
            (getSelectionStart s) (getSelectionEnd s)
     else EOnInput (onInput (props w)) (getBlocks s)
            (getSelectionStart s) (getSelectionEnd s)] /\
  isSyncingOutcomingValue (subscriber w) =
    isSyncingOutcomingValue w ++ [getBlocks s] /\
  isSyncingIncomingValue (subscriber w) = None /\
  exists o', listener (subscriber w) = Some o' /\
             blocks o' = getBlocks s /\
             isPersistent o' = isLastBlockChangePersistent s.
Proof.
  intros s; rewrite (subscriber_emits w o Hl Hdiff Hunarmed Hcounted).
  fold s; simpl. repeat split; auto.
  eexists; repeat split; reflexivity.
Qed.

(** X2: when the host hands back, as the next value, the array that a
    notification has just emitted for different blocks, and changes
    neither settings nor registry, the update makes no call at all, leaves
    every store alone and empties the echo queue. *)
Theorem emitted_value_echo_is_skipped (w : World) (o : Observer) (p : Props)
    (Hl : listener w = Some o)
    (Hdiff : areBlocksDifferent (stores w (subscribedTo o)) o = true)
    (Hunarmed : isSyncingIncomingValue w = None)
    (Hcounted :
       __unstableIsLastBlockChangeIgnored (stores w (subscribedTo o)) =
       false)
    (Hvalue : value p = getBlocks (stores w (subscribedTo o)))
    (Hsettings : settings p = settings (props w))
    (Hregistry : registry p = registry (props w)) :
  trace (receiveProps p (subscriber w)) = trace (subscriber w) /\
  stores (receiveProps p (subscriber w)) = stores w /\
  isSyncingOutcomingValue (receiveProps p (subscriber w)) = [].
Proof.
  destruct (subscriber_frame w) as (Hp & Hst & _).
  assert (Hq : isSyncingOutcomingValue (subscriber w) =
               push (value p) (isSyncingOutcomingValue w))
    by (rewrite (subscriber_emits w o Hl Hdiff Hunarmed Hcounted), Hvalue;
        reflexivity).
  unfold receiveProps.
  rewrite componentDidUpdate_value_only
    by (simpl; rewrite Hp; assumption).
  unfold didUpdateValue; simpl.
  rewrite Hq, includes_push, last_push, Pos.eqb_refl; simpl.
  auto.
Qed.

(** X3: telling the subscriber twice about the same store state is
    telling it once, as far as the host can see: the second run makes no
    call and leaves echo queue and marker as the first run left them. *)
Theorem repeated_notification_is_silent (w : World) :
  trace (subscriber (subscriber w)) = trace (subscriber w) /\
  isSyncingOutcomingValue (subscriber (subscriber w)) =
    isSyncingOutcomingValue (subscriber w) /\
  isSyncingIncomingValue (subscriber (subscriber w)) =
    isSyncingIncomingValue (subscriber w).
Proof.
  destruct (listener w) as [o|] eqn:Hl;
    [|unfold subscriber; rewrite Hl; simpl; rewrite Hl; auto].
  assert (Hnext : exists o1,
    listener (subscriber w) = Some o1 /\
    subscribedTo o1 = subscribedTo o /\
    areBlocksDifferent (stores w (subscribedTo o)) o1 = false /\
    didPersistenceChange (stores w (subscribedTo o)) o1 = false).
  { unfold subscriber; rewrite Hl.
    set (s := stores w (subscribedTo o)).
    destruct (areBlocksDifferent s o &&
              (truthy (isSyncingIncomingValue w) ||
               __unstableIsLastBlockChangeIgnored s)) eqn:Hsup.
    - eexists; split; [reflexivity|]; split; [reflexivity|].
      assert (Hsame : forall b q,
        areBlocksDifferent s
          {| subscribedTo := subscribedTo o; blocks := getBlocks s;
             isPersistent := b; previousAreBlocksDifferent := q |} = false)
        by (intros; apply areBlocksDifferent_same; reflexivity).
      split; [apply Hsame|].
      unfold didPersistenceChange; rewrite Hsame; simpl.
      destruct (isLastBlockChangePersistent s); simpl;
        rewrite ?andb_false_r; reflexivity.
    - destruct (areBlocksDifferent s o || didPersistenceChange s o) eqn:Hem.
      + assert (Hsame : forall b q,
          areBlocksDifferent s
            {| subscribedTo := subscribedTo o; blocks := getBlocks s;
               isPersistent := b; previousAreBlocksDifferent := q |} = false)
          by (intros; apply areBlocksDifferent_same; reflexivity).
        assert (Hdpc : forall q,
          didPersistenceChange s
            {| subscribedTo := subscribedTo o; blocks := getBlocks s;
               isPersistent := isLastBlockChangePersistent s;
               previousAreBlocksDifferent := q |} = false).
        { intros q; unfold didPersistenceChange; rewrite Hsame; simpl.
          destruct (isLastBlockChangePersistent s); simpl;
            rewrite ?andb_false_r; reflexivity. }
        eexists; split; [reflexivity|]; split; [reflexivity|].
        split; [apply Hsame | apply Hdpc].
      + apply orb_false_iff in Hem; destruct Hem as [Hd Hp].
        eexists; split; [reflexivity|]; split; [reflexivity|].
        assert (Hd' : areBlocksDifferent s
          {| subscribedTo := subscribedTo o; blocks := blocks o;
             isPersistent := isPersistent o;
             previousAreBlocksDifferent := areBlocksDifferent s o |} = false)
          by (rewrite (areBlocksDifferent_blocks s o); [exact Hd|];
              reflexivity).
        split; [exact Hd'|].
        unfold didPersistenceChange; simpl; rewrite Hd; reflexivity. }
  destruct Hnext as (o1 & Hl1 & Hr1 & Hd1 & Hp1).
  destruct (subscriber_frame w) as (_ & Hst & _).
  assert (E : subscriber (subscriber w) =
    set_listener
      (Some {| subscribedTo := subscribedTo o1; blocks := blocks o1;
               isPersistent := isPersistent o1;
               previousAreBlocksDifferent := false |}) (subscriber w)).
  { apply subscriber_idles; [exact Hl1 | |]; rewrite Hst, Hr1; assumption. }
  rewrite E; simpl; auto.
Qed.

(** X4: a notification that finds the blocks not different after a
    notification that did not find them different either makes no call
    and changes nothing, even when the persistence flag of the store has
    changed: the snapshot keeps its persistence flag. *)
Theorem persistence_flip_alone_is_silent (w : World) (o : Observer)
    (Hl : listener w = Some o)
    (Hsame : areBlocksDifferent (stores w (subscribedTo o)) o = false)
    (Hprev : previousAreBlocksDifferent o = false) :
  trace (subscriber w) = trace w /\
  isSyncingOutcomingValue (subscriber w) = isSyncingOutcomingValue w /\
  isSyncingIncomingValue (subscriber w) = isSyncingIncomingValue w /\
  listener (subscriber w) = Some o.
Proof.
  rewrite (subscriber_idles w o Hl Hsame).
  - simpl; repeat split; auto.
    destruct o; simpl in *; subst; reflexivity.
  - unfold didPersistenceChange; rewrite Hprev; reflexivity.
Qed.

End Emission.

(** ** Runs of store changes *)

Section Runs.

Context {env : Environment}.

(** A store change reaches the subscriber, which then reads the new
    state, or reaches nobody. *)
Lemma storeChange_cases (r : Registry) (s : StoreState) (w : World) :
  storeChange r s w = set_store r s w \/
  exists o, listener w = Some o /\ subscribedTo o = r /\
            storeChange r s w = subscriber (set_store r s w) /\
            stores (set_store r s w) (subscribedTo o) = s.
Proof.
  unfold storeChange, notify; simpl.
  destruct (listener w) as [o|] eqn:Hl; [|left; reflexivity].
  destruct (Pos.eqb_spec (subscribedTo o) r) as [E|E]; [|left; reflexivity].
  right; exists o; repeat split; auto.
  simpl; rewrite E, Pos.eqb_refl; reflexivity.
Qed.

Lemma storeChange_trace (r : Registry) (s : StoreState) (w : World) :
  exists evs, trace (storeChange r s w) = trace w ++ evs /\
              forallb isEmission evs = true /\
              (List.length evs <= 1)%nat.
Proof.
  destruct (storeChange_cases r s w) as [E|(o & _ & _ & E & _)]; rewrite E.
  - exists []; simpl; rewrite app_nil_r; auto.
  - apply (subscriber_trace (set_store r s w)).
Qed.

Lemma storeChange_queue (r : Registry) (s : StoreState) (w : World) :
  isSyncingOutcomingValue (storeChange r s w) = isSyncingOutcomingValue w \/
  isSyncingOutcomingValue (storeChange r s w) =
    isSyncingOutcomingValue w ++ [getBlocks s].
Proof.
  destruct (storeChange_cases r s w) as [E|(o & Hl & _ & E & Hs)]; rewrite E;
    [left; reflexivity|].
  unfold subscriber; simpl listener; rewrite Hl, Hs.
  repeat match goal with
         | |- context [if ?b then _ else _] => destruct b
         end; simpl; auto.
Qed.

Lemma storeChange_marker (r : Registry) (s : StoreState) (w : World) :
  isSyncingIncomingValue (storeChange r s w) = isSyncingIncomingValue w \/
  isSyncingIncomingValue (storeChange r s w) = None.
Proof.
  destruct (storeChange_cases r s w) as [E|(o & _ & _ & E & _)]; rewrite E;
    [left; reflexivity|].
  apply (subscriber_marker (set_store r s w)).
Qed.

(** X5: however the store changes, the subscriber never dispatches to
    it: a run of [n] notified store changes adds at most [n] calls to the
    trace, each of them a call of [onChange] or [onInput]. *)
Theorem store_changes_only_emit (r : Registry) (ss : list StoreState)
    (w : World) :
  exists evs,
    trace (storeChanges r ss w) = trace w ++ evs /\
    forallb isEmission evs = true /\
    filter isDispatch evs = [] /\
    (List.length evs <= List.length ss)%nat.
Proof.
  revert w; induction ss as [|s ss IH]; intros w; simpl.
  - exists []; rewrite app_nil_r; auto.
  - destruct (storeChange_trace r s w) as (e1 & E1 & H1 & L1).
    destruct (IH (storeChange r s w)) as (e2 & E2 & H2 & _ & L2).
    exists (e1 ++ e2); rewrite E2, E1, <- app_assoc.
    assert (Hall : forallb isEmission (e1 ++ e2) = true)
      by (rewrite forallb_app, H1, H2; reflexivity).
    repeat split; auto.
    + apply emissions_filter; [|exact Hall].
      intros [? ?| | | |]; simpl; congruence.
    + rewrite length_app.
      apply (PeanoNat.Nat.add_le_mono _ 1 _ _ L1 L2).
Qed.

(** X6: a run of [n] notified store changes leaves the echo queue it
    found in place and appends at most [n] entries, each of them an array
    the store held at one of these changes. *)
Theorem store_changes_extend_queue (r : Registry) (ss : list StoreState)
    (w : World) :
  exists pushed,
    isSyncingOutcomingValue (storeChanges r ss w) =
      isSyncingOutcomingValue w ++ pushed /\
    (List.length pushed <= List.length ss)%nat /\
    incl pushed (map getBlocks ss).
Proof.
  revert w; induction ss as [|s ss IH]; intros w; simpl.
  - exists []; rewrite app_nil_r; repeat split; auto.
    intros x [].
  - destruct (IH (storeChange r s w)) as (q & E & L & I).
    destruct (storeChange_queue r s w) as [H|H]; rewrite H in E.
    + exists q; repeat split; auto.
      intros x Hx; right; apply I; exact Hx.
    + exists (getBlocks s :: q); rewrite E, <- app_assoc.
      repeat split; simpl; auto.
      * apply le_n_S; exact L.
      * intros x [Hx|Hx]; [left; exact Hx | right; apply I; exact Hx].
Qed.

(** X7: store changes never arm the marker: after any run of them it is
    what it was or it is cleared, so an unarmed marker stays unarmed
    until the next inbound reset. *)
Theorem store_changes_never_arm (r : Registry) (ss : list StoreState)
    (w : World) :
  isSyncingIncomingValue (storeChanges r ss w) = isSyncingIncomingValue w \/
  isSyncingIncomingValue (storeChanges r ss w) = None.
Proof.
  revert w; induction ss as [|s ss IH]; intros w; simpl; [left; reflexivity|].
  destruct (IH (storeChange r s w)) as [H|H]; [|right; exact H].
  rewrite H; apply storeChange_marker.
Qed.

End Runs.

(** ** Operations that keep the subscription *)

Section Keeping.

Context {env : Environment}.

Lemma emissions_are_calls (evs : list Event) :
  forallb isEmission evs = true -> forallb isCall evs = true.
Proof.
  rewrite !forallb_forall; intros H e He; unfold isCall.
  rewrite (H e He); apply orb_true_r.
Qed.

Lemma keeps_id : keepsSubscription (fun w => w).
Proof.
  intros w; repeat split; eauto.
  exists []; rewrite app_nil_r; auto.
Qed.

Lemma keeps_compose (f g : World -> World) :
  keepsSubscription f -> keepsSubscription g ->
  keepsSubscription (fun w => g (f w)).
Proof.
  intros Hf Hg w.
  destruct (Hf w) as (Pf & Uf & Lf & ef & Tf & Cf).
  destruct (Hg (f w)) as (Pg & Ug & Lg & eg & Tg & Cg).
  split; [congruence|]. split; [congruence|]. split.
  - intros o Hl. destruct (Lf o Hl) as (o1 & Hl1 & Hr1).
    destruct (Lg o1 Hl1) as (o2 & Hl2 & Hr2).
    exists o2; split; [exact Hl2 | congruence].
  - exists (ef ++ eg); rewrite Tg, Tf, <- app_assoc, forallb_app, Cf, Cg.
    auto.
Qed.

Lemma keeps_subscriber : keepsSubscription subscriber.
Proof.
  intros w. destruct (subscriber_frame w) as (Hp & _ & Hu).
  split; [exact Hp|]. split; [exact Hu|]. split.
  - intros o Hl; apply subscriber_listener; exact Hl.
  - destruct (subscriber_trace w) as (evs & E & H & _).
    exists evs; split; [exact E | apply emissions_are_calls; exact H].
Qed.

Lemma keeps_notify (r : Registry) : keepsSubscription (notify r).
Proof.
  intros w; unfold notify.
  destruct (listener w) as [o|] eqn:Hl;
    [destruct (subscribedTo o =? r)|]; rewrite <- Hl;
    first [exact (keeps_subscriber w) | exact (keeps_id w)].
Qed.

Lemma keeps_set_store (r : Registry) (s : StoreState) :
  keepsSubscription (set_store r s).
Proof.
  intros w; simpl; repeat split; eauto.
  exists []; rewrite app_nil_r; auto.
Qed.

Lemma keeps_set_outcoming (q : list Ref) :
  keepsSubscription (set_outcoming q).
Proof.
  intros w; simpl; repeat split; eauto.
  exists []; rewrite app_nil_r; auto.
Qed.

Lemma keeps_set_incoming (m : option Ref) :
  keepsSubscription (set_incoming m).
Proof.
  intros w; simpl; repeat split; eauto.
  exists []; rewrite app_nil_r; auto.
Qed.

Lemma keeps_storeChange (r : Registry) (s : StoreState) :
  keepsSubscription (storeChange r s).
Proof.
  apply (keeps_compose (set_store r s) (notify r));
    [apply keeps_set_store | apply keeps_notify].
Qed.

Lemma keeps_dispatch (a : Action) : keepsSubscription (dispatch a).
Proof.
  intros w; unfold dispatch.
  set (r := registry (props w)).
  set (w1 := log (EDispatch r a) (set_store r (reduce a (stores w r)) w)).
  assert (K1 : props w1 = props w /\ unsubscribe w1 = unsubscribe w /\
               listener w1 = listener w /\
               trace w1 = trace w ++ [EDispatch r a])
    by (repeat split; reflexivity).
  destruct K1 as (P1 & U1 & L1 & T1).
  destruct (notifies a (stores w r)).
  - destruct (keeps_notify r w1) as (P & U & L & evs & T & C).
    split; [congruence|]. split; [congruence|]. split.
    + intros o Hl; apply L; congruence.
    + exists (EDispatch r a :: evs); rewrite T, T1, <- app_assoc.
      simpl; auto.
  - split; [exact P1|]. split; [exact U1|]. split.
    + intros o Hl; exists o; split; [congruence | reflexivity].
    + exists [EDispatch r a]; auto.
Qed.

Lemma keeps_forwardSelection (p : Props) :
  keepsSubscription (forwardSelection p).
Proof.
  unfold forwardSelection; intros w.
  destruct (selectionStart p) as [a|]; [|exact (keeps_id w)].
  destruct (selectionEnd p) as [b|]; [|exact (keeps_id w)].
  exact (keeps_dispatch (ResetSelection a b) w).
Qed.

Lemma keeps_reset (p : Props) (v : Ref) :
  keepsSubscription
    (fun w => forwardSelection p
                (resetBlocks v (set_incoming (Some v) (set_outcoming [] w)))).
Proof.
  apply (keeps_compose
           (fun w => resetBlocks v (set_incoming (Some v) (set_outcoming [] w)))
           (forwardSelection p)); [|apply keeps_forwardSelection].
  apply (keeps_compose
           (fun w => set_incoming (Some v) (set_outcoming [] w))
           (resetBlocks v)); [|apply keeps_dispatch].
  apply (keeps_compose (set_outcoming []) (set_incoming (Some v)));
    [apply keeps_set_outcoming | apply keeps_set_incoming].
Qed.

Lemma keeps_didUpdateValue (prevProps : Props) :
  keepsSubscription (didUpdateValue prevProps).
Proof.
  intros w; unfold didUpdateValue.
  destruct (includes _ _).
  - destruct (lodash.last _) as [v|]; [|exact (keeps_id w)].
    destruct (v =? _);
      [exact (keeps_set_outcoming [] w) | exact (keeps_id w)].
  - destruct (negb _); [|exact (keeps_id w)].
    exact (keeps_reset (props w) (value (props w)) w).
Qed.

Lemma keeps_didUpdateSettings (prevProps : Props) :
  keepsSubscription (didUpdateSettings prevProps).
Proof.
  intros w; unfold didUpdateSettings.
  destruct (_ =? _);
    [exact (keeps_id w)
    | exact (keeps_dispatch (UpdateSettings (settings (props w))) w)].
Qed.

Lemma keeps_subscribedOn (op : World -> World) (r : Registry) (w : World) :
  keepsSubscription op -> subscribedOn r w -> subscribedOn r (op w).
Proof.
  intros K (Hu & o & Hl & Hr).
  destruct (K w) as (_ & U & L & _).
  split; [rewrite U; exact Hu|].
  destruct (L o Hl) as (o' & Hl' & Hr').
  exists o'; split; [exact Hl' | congruence].
Qed.

Lemma calls_filter (f : Event -> bool) (evs : list Event) :
  (forall e, isCall e = true -> f e = false) ->
  forallb isCall evs = true ->
  filter f evs = [].
Proof.
  intros Hf; induction evs as [|e evs IH]; simpl; [reflexivity|].
  rewrite andb_true_iff; intros [He Hr].
  rewrite (Hf e He); apply IH; exact Hr.
Qed.

Lemma calls_keep_open (n : nat) (evs calls : list Event) :
  forallb isCall calls = true ->
  subscriptionsOpen n evs -> subscriptionsOpen n (evs ++ calls).
Proof.
  unfold subscriptionsOpen; intros H E.
  assert (Hs : filter isSubscribe calls = []).
  { revert H; apply calls_filter.
    intros e; destruct e; unfold isCall; simpl; congruence. }
  assert (Hu : filter isUnsubscribe calls = []).
  { revert H; apply calls_filter.
    intros e; destruct e; unfold isCall; simpl; congruence. }
  rewrite !filter_app, Hs, Hu, !app_nil_r; exact E.
Qed.

End Keeping.

(** ** Attaching, re-attaching and releasing the subscription *)

Section Lifecycle.

Context {env : Environment}.

Lemma releaseSubscription_frame (w : World) :
  props (releaseSubscription w) = props w /\
  stores (releaseSubscription w) = stores w /\
  isSyncingOutcomingValue (releaseSubscription w) =
    isSyncingOutcomingValue w /\
  isSyncingIncomingValue (releaseSubscription w) =
    isSyncingIncomingValue w.
Proof.
  unfold releaseSubscription; destruct (unsubscribe w); simpl; auto.
Qed.

(** What [attachChangeObserver] leaves behind. *)
Lemma attachChangeObserver_listener (r : Registry) (w : World) :
  listener (attachChangeObserver r w) =
    Some {| subscribedTo := r;
            blocks := getBlocks (stores w r);
            isPersistent := isLastBlockChangePersistent (stores w r);
            previousAreBlocksDifferent := false |} /\
  unsubscribe (attachChangeObserver r w) = Some r /\
  props (attachChangeObserver r w) = props w /\
  stores (attachChangeObserver r w) = stores w /\
  isSyncingOutcomingValue (attachChangeObserver r w) =
    isSyncingOutcomingValue w /\
  isSyncingIncomingValue (attachChangeObserver r w) =
    isSyncingIncomingValue w.
Proof.
  destruct (releaseSubscription_frame w) as (Hp & Hs & Hq & Hm).
  unfold attachChangeObserver.
  cbn [listener unsubscribe props stores isSyncingOutcomingValue
       isSyncingIncomingValue set_unsubscribe set_listener log].
  rewrite Hs; repeat split; assumption.
Qed.

Lemma attachChangeObserver_trace (r : Registry) (w : World) :
  trace (attachChangeObserver r w) =
    trace w ++
    match unsubscribe w with
    | Some _ => [EUnsubscribe; ESubscribe r]
    | None => [ESubscribe r]
    end.
Proof.
  unfold attachChangeObserver, releaseSubscription.
  destruct (unsubscribe w); simpl; rewrite <- ?app_assoc; reflexivity.
Qed.

Lemma subscriber_silent_on_baseline (w : World) (o : Observer) :
  listener w = Some o ->
  blocks o = getBlocks (stores w (subscribedTo o)) ->
  previousAreBlocksDifferent o = false ->
  trace (subscriber w) = trace w /\
  isSyncingOutcomingValue (subscriber w) = isSyncingOutcomingValue w /\
  isSyncingIncomingValue (subscriber w) = isSyncingIncomingValue w.
Proof.
  intros Hl Hb Hp.
  rewrite (subscriber_idles w o Hl).
  - simpl; auto.
  - apply areBlocksDifferent_same; exact Hb.
  - unfold didPersistenceChange; rewrite Hp; reflexivity.
Qed.

(** X8: the subscriber starts from the store as it is when it is
    attached, so a notification that arrives before the store has
    changed again is silent: no call of [onChange] or [onInput], nothing
    pushed, marker untouched.  The same holds right after mounting, where
    the initial [resetBlocks] has already been dispatched. *)
Theorem first_notification_is_silent (r : Registry) (w : World) :
  (trace (notify r (attachChangeObserver r w)) =
     trace (attachChangeObserver r w) /\
   isSyncingOutcomingValue (notify r (attachChangeObserver r w)) =
     isSyncingOutcomingValue w /\
   isSyncingIncomingValue (notify r (attachChangeObserver r w)) =
     isSyncingIncomingValue w) /\
  (trace (notify (registry (props w)) (componentDidMount w)) =
     trace (componentDidMount w) /\
   isSyncingOutcomingValue
     (notify (registry (props w)) (componentDidMount w)) = []).
Proof.
  assert (A : forall (r : Registry) (w q : World),
    listener q = listener (attachChangeObserver r w) ->
    stores q = stores w ->
    trace (notify r q) = trace q /\
    isSyncingOutcomingValue (notify r q) = isSyncingOutcomingValue q /\
    isSyncingIncomingValue (notify r q) = isSyncingIncomingValue q).
  { intros r0 w0 q Hl Hs.
    destruct (attachChangeObserver_listener r0 w0) as (Hl0 & _).
    rewrite Hl0 in Hl.
    unfold notify; rewrite Hl; simpl; rewrite Pos.eqb_refl.
    apply (subscriber_silent_on_baseline q _ Hl); simpl;
      [rewrite Hs|]; reflexivity. }
  split.
  - destruct (attachChangeObserver_listener r w)
      as (_ & _ & _ & Hs & Hq & Hm).
    destruct (A r w (attachChangeObserver r w) eq_refl Hs) as (T & Q & M).
    rewrite T, Q, M; auto.
  - unfold componentDidMount.
    set (w2 := resetBlocks (value (props w))
                 (updateSettings (settings (props w)) w)).
    set (r0 := registry (props w)).
    destruct (attachChangeObserver_listener r0 w2) as (_ & _ & _ & Hs & _).
    destruct (A r0 w2 (set_outcoming [] (attachChangeObserver r0 w2))
                eq_refl Hs) as (T & Q & _).
    rewrite T, Q; auto.
Qed.

(** X9: when the registry prop changes on a mounted component, the old
    subscription is released before the new one is made; the subscriber
    restarts from the new registry's store with its history forgotten;
    notifications of the old registry no longer reach it; echo queue and
    marker are carried over. *)
Theorem registry_change_reattaches (prevProps : Props) (w : World)
    (Hr : registry (props w) <> registry prevProps)
    (Hu : unsubscribe w <> None) :
  let r := registry (props w) in
  let w' := didUpdateRegistry prevProps w in
  trace w' = trace w ++ [EUnsubscribe; ESubscribe r] /\
  listener w' =
    Some {| subscribedTo := r;
            blocks := getBlocks (stores w r);
            isPersistent := isLastBlockChangePersistent (stores w r);
            previousAreBlocksDifferent := false |} /\
  notify (registry prevProps) w' = w' /\
  isSyncingOutcomingValue w' = isSyncingOutcomingValue w /\
  isSyncingIncomingValue w' = isSyncingIncomingValue w.
Proof.
  intros r w'.
  assert (E : w' = attachChangeObserver r w).
  { unfold w', didUpdateRegistry. fold r.
    apply Pos.eqb_neq in Hr; fold r in Hr; rewrite Hr; reflexivity. }
  destruct (attachChangeObserver_listener r w) as (Hl & _ & _ & _ & Hq & Hm).
  rewrite E. split; [|split; [exact Hl|split; [|auto]]].
  - rewrite attachChangeObserver_trace.
    destruct (unsubscribe w); [reflexivity | congruence].
  - unfold notify; rewrite Hl; simpl.
    apply Pos.eqb_neq in Hr; fold r in Hr; rewrite Hr; reflexivity.
Qed.

Lemma attachChangeObserver_subscribedOn (r : Registry) (w : World) :
  subscribedOn r (attachChangeObserver r w).
Proof.
  destruct (attachChangeObserver_listener r w) as (Hl & Hu & _).
  split; [rewrite Hu; discriminate|].
  eexists; split; [exact Hl | reflexivity].
Qed.

Lemma componentDidMount_attached (w : World) :
  attached (componentDidMount w).
Proof.
  unfold attached, componentDidMount.
  set (w2 := resetBlocks (value (props w))
               (updateSettings (settings (props w)) w)).
  assert (Hp : props w2 = props w).
  { unfold w2, resetBlocks, updateSettings; rewrite !dispatch_props.
    reflexivity. }
  destruct (attachChangeObserver_listener (registry (props w)) w2)
    as (_ & _ & Hp' & _).
  change (props (set_outcoming []
                   (attachChangeObserver (registry (props w)) w2)))
    with (props (attachChangeObserver (registry (props w)) w2)).
  rewrite Hp', Hp.
  apply (keeps_subscribedOn (set_outcoming [])); [apply keeps_set_outcoming|].
  apply attachChangeObserver_subscribedOn.
Qed.

Lemma componentDidUpdate_attached (prevProps : Props) (w : World) :
  subscribedOn (registry prevProps) w ->
  attached (componentDidUpdate prevProps w).
Proof.
  intros H; unfold attached, componentDidUpdate.
  set (w1 := didUpdateSettings prevProps w).
  assert (H1 : subscribedOn (registry prevProps) w1)
    by (apply keeps_subscribedOn; [apply keeps_didUpdateSettings | exact H]).
  assert (P1 : props w1 = props w)
    by apply (keeps_didUpdateSettings prevProps w).
  set (w2 := didUpdateRegistry prevProps w1).
  assert (H2 : subscribedOn (registry (props w)) w2 /\ props w2 = props w).
  { unfold w2, didUpdateRegistry; rewrite P1.
    destruct (Pos.eqb_spec (registry (props w)) (registry prevProps))
      as [E|E].
    - rewrite E; auto.
    - destruct (attachChangeObserver_listener (registry (props w)) w1)
        as (_ & _ & Hp & _).
      split; [apply attachChangeObserver_subscribedOn | congruence]. }
  destruct H2 as (H2 & P2).
  destruct (keeps_didUpdateValue prevProps w2) as (P3 & _).
  rewrite P3, P2.
  apply keeps_subscribedOn; [apply keeps_didUpdateValue | exact H2].
Qed.

Lemma step_attached (i : Input) (w : World) :
  attached w -> attached (step i w).
Proof.
  intros H; destruct i as [p|r s]; simpl.
  - unfold receiveProps; apply componentDidUpdate_attached; exact H.
  - unfold attached.
    destruct (keeps_storeChange r s w) as (P & _); rewrite P.
    apply keeps_subscribedOn; [apply keeps_storeChange | exact H].
Qed.

(** X10: from mounting on, through any sequence of re-renders and store
    changes, [this.unsubscribe] is set and the subscription is live on
    the registry of the current props. *)
Theorem session_stays_attached (inputs : list Input) (w : World) :
  attached (session inputs (componentDidMount w)).
Proof.
  generalize (componentDidMount_attached w).
  generalize (componentDidMount w); clear w.
  induction inputs as [|i inputs IH]; intros w H; simpl; [exact H|].
  apply IH, step_attached, H.
Qed.

End Lifecycle.

(** ** Subscriptions are released as often as they are made *)

Section Balance.

Context {env : Environment}.

Lemma keeps_open (op : World -> World) (n : nat) (w : World) :
  keepsSubscription op ->
  subscriptionsOpen n (trace w) -> subscriptionsOpen n (trace (op w)).
Proof.
  intros K H; destruct (K w) as (_ & _ & _ & evs & T & C).
  rewrite T; apply calls_keep_open; assumption.
Qed.

Lemma attachChangeObserver_open (r : Registry) (n : nat) (w : World) :
  subscriptionsOpen n (trace w) ->
  subscriptionsOpen (match unsubscribe w with Some _ => n | None => S n end)
    (trace (attachChangeObserver r w)).
Proof.
  unfold subscriptionsOpen; intros H.
  rewrite attachChangeObserver_trace.
  destruct (unsubscribe w); rewrite !filter_app, !length_app; simpl;
    rewrite H; rewrite <- ?plus_n_O, <- ?plus_n_Sm; simpl;
    rewrite <- ?plus_n_O, <- ?plus_n_Sm; reflexivity.
Qed.

Lemma componentDidUpdate_open (prevProps : Props) (w : World) :
  subscribedOn (registry prevProps) w ->
  subscriptionsOpen 1 (trace w) ->
  subscriptionsOpen 1 (trace (componentDidUpdate prevProps w)).
Proof.
  intros H O; unfold componentDidUpdate.
  apply keeps_open; [apply keeps_didUpdateValue|].
  set (w1 := didUpdateSettings prevProps w).
  assert (H1 : subscribedOn (registry prevProps) w1)
    by (apply keeps_subscribedOn; [apply keeps_didUpdateSettings | exact H]).
  assert (O1 : subscriptionsOpen 1 (trace w1))
    by (apply keeps_open; [apply keeps_didUpdateSettings | exact O]).
  unfold didUpdateRegistry.
  destruct (_ =? _); [exact O1|].
  generalize (attachChangeObserver_open (registry (props w1)) 1 w1 O1).
  destruct H1 as (Hu & _).
  destruct (unsubscribe w1); [auto | congruence].
Qed.

Lemma step_open (i : Input) (w : World) :
  attached w ->
  subscriptionsOpen 1 (trace w) -> subscriptionsOpen 1 (trace (step i w)).
Proof.
  intros H O; destruct i as [p|r s]; simpl.
  - unfold receiveProps; apply componentDidUpdate_open; assumption.
  - apply keeps_open; [apply keeps_storeChange | exact O].
Qed.

(** X11: over a whole life (mounting, any sequence of re-renders,
    registry changes and store changes, unmounting) every subscription
    that was made is released: while mounted exactly one is open, after
    unmounting none. *)
Theorem subscriptions_are_balanced (inputs : list Input) (w : World)
    (Hu : unsubscribe w = None)
    (H0 : subscriptionsOpen 0 (trace w)) :
  subscriptionsOpen 1 (trace (session inputs (componentDidMount w))) /\
  subscriptionsOpen 0
    (trace (componentWillUnmount (session inputs (componentDidMount w)))).
Proof.
  assert (M : subscriptionsOpen 1 (trace (componentDidMount w))).
  { unfold componentDidMount.
    set (w2 := resetBlocks (value (props w))
                 (updateSettings (settings (props w)) w)).
    assert (K : keepsSubscription
                  (fun w0 => resetBlocks (value (props w))
                               (updateSettings (settings (props w)) w0)))
      by (apply (keeps_compose (updateSettings (settings (props w)))
                   (resetBlocks (value (props w)))); apply keeps_dispatch).
    assert (O2 : subscriptionsOpen 0 (trace w2))
      by (apply (keeps_open _ 0 w K); exact H0).
    assert (U2 : unsubscribe w2 = None)
      by (destruct (K w) as (_ & U & _); unfold w2; rewrite U; exact Hu).
    generalize (attachChangeObserver_open (registry (props w)) 0 w2 O2).
    rewrite U2; auto. }
  assert (I : forall inputs w,
    attached w -> subscriptionsOpen 1 (trace w) ->
    attached (session inputs w) /\
    subscriptionsOpen 1 (trace (session inputs w))).
  { clear; induction inputs as [|i inputs IH]; intros w A O; simpl; [auto|].
    apply IH; [apply step_attached | apply step_open]; assumption. }
  destruct (I inputs _ (componentDidMount_attached w) M) as (A & O).
  split; [exact O|].
  unfold componentWillUnmount, releaseSubscription.
  destruct A as (Hs & _).
  destruct (unsubscribe (session inputs (componentDidMount w)));
    [|congruence].
  unfold subscriptionsOpen in *; simpl.
  rewrite !filter_app, !length_app, O; simpl.
  rewrite <- plus_n_Sm, <- plus_n_O; reflexivity.
Qed.

Lemma storeChanges_unobserved (r : Registry) (ss : list StoreState) :
  forall w : World,
    listener w = None ->
    trace (storeChanges r ss w) = trace w /\
    isSyncingOutcomingValue (storeChanges r ss w) =
      isSyncingOutcomingValue w /\
    listener (storeChanges r ss w) = None.
Proof.
  induction ss as [|s ss IH]; intros w Hl; simpl; [auto|].
  assert (E : storeChange r s w = set_store r s w)
    by (unfold storeChange, notify; simpl; rewrite Hl; reflexivity).
  rewrite E; apply (IH (set_store r s w)); exact Hl.
Qed.

(** X12: after unmounting, the store can change as it likes: the
    component makes no call and its echo queue stays as it was. *)
Theorem unmounted_component_is_silent (r : Registry) (ss : list StoreState)
    (w : World) (Hu : unsubscribe w <> None) :
  trace (storeChanges r ss (componentWillUnmount w)) =
    trace w ++ [EUnsubscribe] /\
  isSyncingOutcomingValue (storeChanges r ss (componentWillUnmount w)) =
    isSyncingOutcomingValue w /\
  listener (storeChanges r ss (componentWillUnmount w)) = None.
Proof.
  assert (E : componentWillUnmount w = log EUnsubscribe (set_listener None w))
    by (unfold componentWillUnmount, releaseSubscription;
        destruct (unsubscribe w); [reflexivity | congruence]).
  rewrite E.
  apply (storeChanges_unobserved r ss (log EUnsubscribe (set_listener None w))).
  reflexivity.
Qed.

End Balance.

(** ** Updates that do not change the value, and the settings *)

Section Updates.

Context {env : Environment}.

(** X13: an update that changes neither the settings, the registry nor
    the value makes no call, whatever its selection props are and
    whatever the echo queue holds: a selection is only ever forwarded
    together with a new value. *)
Theorem same_value_makes_no_call (prevProps : Props) (w : World)
    (Hs : settings (props w) = settings prevProps)
    (Hr : registry (props w) = registry prevProps)
    (Hv : value (props w) = value prevProps) :
  trace (componentDidUpdate prevProps w) = trace w /\
  stores (componentDidUpdate prevProps w) = stores w /\
  isSyncingIncomingValue (componentDidUpdate prevProps w) =
    isSyncingIncomingValue w /\
  listener (componentDidUpdate prevProps w) = listener w.
Proof.
  rewrite (componentDidUpdate_value_only prevProps w Hs Hr).
  unfold didUpdateValue; rewrite Hv, Pos.eqb_refl; simpl.
  destruct (includes _ _); [|auto].
  destruct (lodash.last _) as [v|]; [|auto].
  destruct (v =? _); simpl; auto.
Qed.

Lemma didUpdateValue_no_settings (prevProps : Props) (w : World) :
  exists evs, trace (didUpdateValue prevProps w) = trace w ++ evs /\
              filter isUpdateSettings evs = [].
Proof.
  assert (Id : exists evs, trace w = trace w ++ evs /\
                           filter isUpdateSettings evs = [])
    by (exists []; rewrite app_nil_r; auto).
  assert (Em : forall evs, forallb isEmission evs = true ->
                           filter isUpdateSettings evs = [])
    by (intros evs H; apply emissions_filter; [|exact H];
        intros [? [| |]| | | |]; simpl; congruence).
  unfold didUpdateValue.
  destruct (includes _ _).
  - destruct (lodash.last _) as [v|]; [|exact Id].
    destruct (v =? _); [exact Id | exact Id].
  - destruct (negb _); [|exact Id].
    set (armed := set_incoming (Some (value (props w))) (set_outcoming [] w)).
    destruct (dispatch_trace (ResetBlocks (value (props w))) armed)
      as (e1 & T1 & C1).
    unfold forwardSelection, resetSelection, resetBlocks.
    destruct (selectionStart (props w)) as [a|];
      [destruct (selectionEnd (props w)) as [b|]|];
      try (eexists; split; [exact T1|]; simpl; apply Em; exact C1).
    destruct (dispatch_trace (ResetSelection a b)
                (dispatch (ResetBlocks (value (props w))) armed))
      as (e2 & T2 & C2).
    eexists; split.
    + rewrite T2, T1, <- app_assoc; simpl; reflexivity.
    + simpl; rewrite filter_app; simpl; rewrite (Em _ C1), (Em _ C2).
      reflexivity.
Qed.

(** X14: an update forwards the settings to the store exactly when the
    settings object differs by reference from the previous one, once and
    to the registry of the current props; otherwise it makes no
    [updateSettings] call. *)
Theorem settings_forwarded_iff_changed (prevProps : Props) (w : World) :
  exists evs,
    trace (componentDidUpdate prevProps w) = trace w ++ evs /\
    filter isUpdateSettings evs =
      if settings (props w) =? settings prevProps then []
      else [EDispatch (registry (props w))
              (UpdateSettings (settings (props w)))].
Proof.
  unfold componentDidUpdate.
  set (w1 := didUpdateSettings prevProps w).
  set (w2 := didUpdateRegistry prevProps w1).
  destruct (didUpdateValue_no_settings prevProps w2) as (e3 & T3 & F3).
  assert (S2 : exists e2, trace w2 = trace w1 ++ e2 /\
                          filter isUpdateSettings e2 = []).
  { unfold w2, didUpdateRegistry.
    destruct (_ =? _); [exists []; rewrite app_nil_r; auto|].
    rewrite attachChangeObserver_trace.
    destruct (unsubscribe w1); eexists; split; reflexivity. }
  destruct S2 as (e2 & T2 & F2).
  assert (S1 : exists e1, trace w1 = trace w ++ e1 /\
    filter isUpdateSettings e1 =
      if settings (props w) =? settings prevProps then []
      else [EDispatch (registry (props w))
              (UpdateSettings (settings (props w)))]).
  { unfold w1, didUpdateSettings.
    destruct (_ =? _); [exists []; rewrite app_nil_r; auto|].
    destruct (dispatch_trace (UpdateSettings (settings (props w))) w)
      as (e & T & C).
    eexists; split; [exact T|]; simpl.
    rewrite (emissions_filter isUpdateSettings e); [reflexivity| |exact C].
    intros [? [| |]| | | |]; simpl; congruence. }
  destruct S1 as (e1 & T1 & F1).
  exists (e1 ++ e2 ++ e3).
  rewrite T3, T2, T1, <- !app_assoc, !filter_app, F1, F2, F3, !app_nil_r.
  auto.
Qed.

End Updates.

(** ** The echo of a promoted change *)

Section PromotedEcho.

Context {env : Environment}.

(** The emission branch taken for a persistence change alone. *)
Lemma subscriber_promotes (w : World) (o : Observer) :
  listener w = Some o ->
  areBlocksDifferent (stores w (subscribedTo o)) o = false ->
  didPersistenceChange (stores w (subscribedTo o)) o = true ->
  subscriber w =
    set_listener
      (Some {| subscribedTo := subscribedTo o;
               blocks := getBlocks (stores w (subscribedTo o));
               isPersistent := true;
               previousAreBlocksDifferent := false |})
      (log (EOnChange (onChange (props w))
              (getBlocks (stores w (subscribedTo o)))
              (getSelectionStart (stores w (subscribedTo o)))
              (getSelectionEnd (stores w (subscribedTo o)))) w).
Proof.
  intros Hl Hd Hp; unfold subscriber; rewrite Hl, Hd, Hp; simpl.
  unfold didPersistenceChange in Hp; rewrite !andb_true_iff in Hp.
  destruct Hp as ((_ & Hpers) & _); rewrite Hpers; reflexivity.
Qed.

(** X15: without controlled inner block areas, a transient change that
    is emitted through [onInput] and then promoted through [onChange]
    hands the host the same array twice and queues it once; when the host
    passes that array back as the value, with settings and registry
    unchanged, the update makes no call and empties the echo queue. *)
Theorem promoted_value_echo_is_skipped (w0 wmid : World) (o : Observer)
    (p : Props)
    (Hl : listener w0 = Some o)
    (Hdiff : areBlocksDifferent (stores w0 (subscribedTo o)) o = true)
    (Htransient :
       isLastBlockChangePersistent (stores w0 (subscribedTo o)) = false)
    (Hunarmed : isSyncingIncomingValue w0 = None)
    (Hcounted :
       __unstableIsLastBlockChangeIgnored (stores w0 (subscribedTo o)) =
       false)
    (Hmid : listener wmid = listener (subscriber w0))
    (Hqueue : isSyncingOutcomingValue wmid =
              isSyncingOutcomingValue (subscriber w0))
    (Hplain :
       areAnyInnerBlocksControlled (stores wmid (subscribedTo o)) = false)
    (Hsame : findsDifferent wmid = false)
    (Hpersistent :
       isLastBlockChangePersistent (stores wmid (subscribedTo o)) = true)
    (Hvalue : value p = getBlocks (stores wmid (subscribedTo o)))
    (Hsettings : settings p = settings (props wmid))
    (Hregistry : registry p = registry (props wmid)) :
  let s1 := stores w0 (subscribedTo o) in
  let s2 := stores wmid (subscribedTo o) in
  trace (subscriber w0) =
    trace w0 ++ [EOnInput (onInput (props w0)) (getBlocks s1)
                   (getSelectionStart s1) (getSelectionEnd s1)] /\
  trace (subscriber wmid) =
    trace wmid ++ [EOnChange (onChange (props wmid)) (getBlocks s1)
                     (getSelectionStart s2) (getSelectionEnd s2)] /\
  isSyncingOutcomingValue (subscriber wmid) =
    isSyncingOutcomingValue w0 ++ [getBlocks s1] /\
  trace (receiveProps p (subscriber wmid)) = trace (subscriber wmid) /\
  isSyncingOutcomingValue (receiveProps p (subscriber wmid)) = [].
Proof.
  intros s1 s2.
  pose proof (subscriber_emits w0 o Hl Hdiff Hunarmed Hcounted) as E1.
  fold s1 in E1, Htransient; rewrite Htransient in E1.
  rewrite E1 in Hmid, Hqueue; simpl in Hmid, Hqueue.
  unfold findsDifferent in Hsame; rewrite Hmid in Hsame; simpl in Hsame.
  fold s2 in Hsame, Hplain, Hpersistent, Hvalue.
  assert (Hb : getBlocks s2 = getBlocks s1).
  { unfold areBlocksDifferent in Hsame; rewrite Hplain in Hsame.
    apply negb_false_iff, Pos.eqb_eq in Hsame; exact Hsame. }
  assert (E2 : subscriber wmid =
    set_listener
      (Some {| subscribedTo := subscribedTo o; blocks := getBlocks s2;
               isPersistent := true;
               previousAreBlocksDifferent := false |})
      (log (EOnChange (onChange (props wmid)) (getBlocks s2)
              (getSelectionStart s2) (getSelectionEnd s2)) wmid)).
  { apply (subscriber_promotes wmid _ Hmid); simpl; fold s2;
      [exact Hsame|].
    unfold didPersistenceChange; simpl; rewrite Hsame, Hpersistent.
    reflexivity. }
  split; [rewrite E1; reflexivity|].
  split; [rewrite E2, Hb; reflexivity|].
  assert (Q : isSyncingOutcomingValue (subscriber wmid) =
              push (value p) (isSyncingOutcomingValue w0))
    by (rewrite E2; simpl; rewrite Hqueue, Hvalue, Hb; reflexivity).
  split; [rewrite Q, Hvalue, Hb; reflexivity|].
  destruct (subscriber_frame wmid) as (Hp & _).
  unfold receiveProps.
  rewrite componentDidUpdate_value_only
    by (simpl; rewrite Hp; assumption).
  unfold didUpdateValue; simpl.
  rewrite Q, includes_push, last_push, Pos.eqb_refl; simpl.
  auto.
Qed.

End PromotedEcho.

(** * Properties of the table-of-contents block *)

(** ** The page of a block *)

Section Pages.

Variable sel : TableOfContents.Selectors.

Lemma countPages_bounds (l : list string) (n : nat) :
  forall i page,
    (page <= TableOfContents.countPages sel l i n page <= page + n)%nat.
Proof.
  induction n as [|n IH]; intros i page; simpl; [lia|].
  destruct (TableOfContents.isNextpage _).
  - specialize (IH (S i) (S page)); lia.
  - specialize (IH (S i) page); lia.
Qed.

Lemma countPages_add (l : list string) (n m : nat) :
  forall i page,
    TableOfContents.countPages sel l i (n + m) page =
    TableOfContents.countPages sel l (i + n) m
      (TableOfContents.countPages sel l i n page).
Proof.
  induction n as [|n IH]; intros i page; simpl.
  - rewrite PeanoNat.Nat.add_0_r; reflexivity.
  - rewrite IH, <- plus_n_Sm; reflexivity.
Qed.

Lemma countPages_shift (x : string) (l : list string) (n : nat) :
  forall i page,
    TableOfContents.countPages sel (x :: l) (S i) n page =
    TableOfContents.countPages sel l i n page.
Proof.
  induction n as [|n IH]; intros i page; simpl; [reflexivity|].
  apply IH.
Qed.

Lemma countPages_nil (n : nat) :
  TableOfContents.isNextpage (TableOfContents.getBlockName sel None) = false ->
  forall i page, TableOfContents.countPages sel [] i n page = page.
Proof.
  intros H; induction n as [|n IH]; intros i page; simpl; [reflexivity|].
  replace (nth_error (@nil string) i) with (@None string)
    by (destruct i; reflexivity).
  rewrite H; apply IH.
Qed.

Lemma countPages_firstn
    (Hnull : TableOfContents.isNextpage
               (TableOfContents.getBlockName sel None) = false)
    (l : list string) :
  forall n page,
    TableOfContents.countPages sel l 0 n page =
    (page +
     List.length
       (filter (fun id => TableOfContents.isNextpage
                            (TableOfContents.getBlockName sel (Some id)))
          (firstn n l)))%nat.
Proof.
  induction l as [|x l IH]; intros n page.
  - rewrite countPages_nil, firstn_nil by exact Hnull; simpl; lia.
  - destruct n as [|n]; simpl; [lia|].
    rewrite countPages_shift, IH.
    destruct (TableOfContents.isNextpage
                (TableOfContents.getBlockName sel (Some x))); simpl; lia.
Qed.

(** X16: the page of a block is at least 1 and at most 1 plus its
    position in the block order; a block that is first in the order, or
    that is not in it (position [-1]), is on page 1. *)
Theorem pageIndex_bounds (clientId : string) :
  (1 <= TableOfContents.pageIndex sel clientId)%nat /\
  (Z.of_nat (TableOfContents.pageIndex sel clientId) <=
   1 + Z.max 0 (TableOfContents.getBlockIndex sel clientId))%Z /\
  ((TableOfContents.getBlockIndex sel clientId <= 0)%Z ->
   TableOfContents.pageIndex sel clientId = 1%nat).
Proof.
  unfold TableOfContents.pageIndex.
  pose proof (countPages_bounds (TableOfContents.getBlockOrder sel)
                (Z.to_nat (TableOfContents.getBlockIndex sel clientId))
                0%nat 1%nat) as B.
  repeat split; try lia.
Qed.

(** X17: when [getBlockName] does not answer ['core/nextpage'] for
    [undefined], the page of a block is 1 plus the number of
    ['core/nextpage'] blocks among the blocks that precede it in the
    order; positions past the end of the order count for nothing. *)
Theorem pageIndex_counts_preceding_breaks (clientId : string)
    (Hnull : TableOfContents.isNextpage
               (TableOfContents.getBlockName sel None) = false) :
  TableOfContents.pageIndex sel clientId =
  (1 +
   List.length
     (filter (fun id => TableOfContents.isNextpage
                          (TableOfContents.getBlockName sel (Some id)))
        (firstn (Z.to_nat (TableOfContents.getBlockIndex sel clientId))
           (TableOfContents.getBlockOrder sel))))%nat.
Proof.
  unfold TableOfContents.pageIndex; apply countPages_firstn; exact Hnull.
Qed.

(** X18: a block further down the order is never on an earlier page,
    and it is at most as many pages later as there are positions between
    the two blocks. *)
Theorem pageIndex_monotone (a b : string)
    (Hpos : (0 <= TableOfContents.getBlockIndex sel a)%Z)
    (Hle : (TableOfContents.getBlockIndex sel a <=
            TableOfContents.getBlockIndex sel b)%Z) :
  (TableOfContents.pageIndex sel a <= TableOfContents.pageIndex sel b)%nat /\
  (Z.of_nat (TableOfContents.pageIndex sel b) <=
   Z.of_nat (TableOfContents.pageIndex sel a) +
   (TableOfContents.getBlockIndex sel b -
    TableOfContents.getBlockIndex sel a))%Z.
Proof.
  unfold TableOfContents.pageIndex.
  set (l := TableOfContents.getBlockOrder sel).
  set (n := Z.to_nat (TableOfContents.getBlockIndex sel a)).
  replace (Z.to_nat (TableOfContents.getBlockIndex sel b))
    with (n + (Z.to_nat (TableOfContents.getBlockIndex sel b) - n))%nat
    by (unfold n; lia).
  rewrite countPages_add.
  pose proof (countPages_bounds l
                (Z.to_nat (TableOfContents.getBlockIndex sel b) - n)
                (0 + n) (TableOfContents.countPages sel l 0 n 1)) as B.
  unfold n in *; split; lia.
Qed.

End Pages.

(** ** The pages of the post content *)

Section Content.

Lemma prefix_slice (a b : string) :
  String.prefix a b = true ->
  b = (a ++ TableOfContents.slice (String.length a) b)%string.
Proof.
  revert b; induction a as [|c a IH]; intros b.
  - intros _; destruct b; reflexivity.
  - destruct b as [|d b]; simpl; [discriminate|].
    destruct (Ascii.ascii_dec c d) as [->|]; [|discriminate].
    intros H; rewrite <- (IH b H); reflexivity.
Qed.

Lemma join_cons_char (separator : string) (c : ascii) (p : string)
    (ps : list string) :
  TableOfContents.join separator (String c p :: ps) =
  String c (TableOfContents.join separator (p :: ps)).
Proof. destruct ps; reflexivity. Qed.

Lemma splitFrom_join (separator : string) :
  separator <> EmptyString ->
  forall s k,
    TableOfContents.join separator
      (fst (TableOfContents.splitFrom separator s k) ::
       snd (TableOfContents.splitFrom separator s k)) =
    TableOfContents.slice k s.
Proof.
  intros Hne; induction s as [|c s IH]; intros k.
  - destruct k; reflexivity.
  - destruct k as [|k]; [|simpl; apply IH].
    cbn [TableOfContents.splitFrom].
    destruct (String.prefix separator (String c s)) eqn:Hp.
    + specialize (IH (String.length separator - 1)%nat).
      destruct (TableOfContents.splitFrom separator s
                  (String.length separator - 1)) as [p ps].
      cbn [fst snd] in *.
      change (TableOfContents.join separator (EmptyString :: p :: ps))
        with (separator ++ TableOfContents.join separator (p :: ps))%string.
      rewrite IH.
      change (TableOfContents.slice 0 (String c s)) with (String c s).
      rewrite (prefix_slice _ _ Hp) at 1.
      destruct separator as [|d sep']; [congruence|].
      simpl; rewrite PeanoNat.Nat.sub_0_r; reflexivity.
    + specialize (IH 0%nat).
      destruct (TableOfContents.splitFrom separator s 0) as [p ps].
      cbn [fst snd] in *.
      rewrite join_cons_char, IH.
      destruct s; reflexivity.
Qed.

(** X19: cutting the post content at a separator that is not empty
    loses nothing but the separators: there is always a first page, and
    the pages joined by the separator are the content again. *)
Theorem split_join (separator s : string)
    (Hne : separator <> EmptyString) :
  TableOfContents.split separator s <> [] /\
  TableOfContents.join separator (TableOfContents.split separator s) = s.
Proof.
  pose proof (splitFrom_join separator Hne s 0) as J.
  unfold TableOfContents.split.
  destruct separator as [|d sep']; [congruence|].
  destruct (TableOfContents.splitFrom (String d sep') s 0) as [p ps].
  split; [discriminate|].
  cbn [fst snd] in J; rewrite J; destruct s; reflexivity.
Qed.

Lemma splitFrom_absent (separator : string) :
  forall s,
    TableOfContents.includes separator s = false ->
    TableOfContents.splitFrom separator s 0 = (s, []).
Proof.
  induction s as [|c s IH]; [reflexivity|].
  cbn [TableOfContents.includes TableOfContents.splitFrom].
  intros H; apply orb_false_iff in H; destruct H as [Hp Hs].
  rewrite Hp, (IH Hs); reflexivity.
Qed.

Context {utils : TableOfContents.Utils}.

(** X20: for a post content without [<!--nextpage-->], showing only the
    headings of the current page changes nothing for a block on page 1;
    for a block computed to be on a later page there is no such page, and
    [getHeadingsFromContent] is called with [undefined]. *)
Theorem unpaginated_content_is_one_page (postContent : string)
    (Habsent :
       TableOfContents.includes "<!--nextpage-->" postContent = false) :
  (forall page : nat,
     TableOfContents.latestHeadings true postContent 1 =
     TableOfContents.latestHeadings false postContent page) /\
  (forall page : nat,
     (2 <= page)%nat ->
     TableOfContents.latestHeadings true postContent page =
     TableOfContents.getHeadingsFromContent None).
Proof.
  unfold TableOfContents.latestHeadings, TableOfContents.split.
  rewrite (splitFrom_absent _ _ Habsent).
  split; [reflexivity|].
  intros page Hp.
  destruct page as [|[|page]]; try lia; simpl.
  destruct page; reflexivity.
Qed.

(** X21: when [isEqual] holds exactly of equal lists, the effect leaves
    the latest headings in the state, calls [setHeadings] exactly when
    the state held something else, and, run again on what it left, calls
    nothing. *)
Theorem headingsEffect_settles
    (Heq : forall a b : list TableOfContents.Heading,
             TableOfContents.isEqual a b = true <-> a = b)
    (headings : list TableOfContents.Heading) (showOnly : bool)
    (postContent : string) (page : nat) :
  let latest := TableOfContents.latestHeadings showOnly postContent page in
  let after :=
    TableOfContents.headingsEffect headings showOnly postContent page in
  fst after = latest /\
  (snd after = true <-> headings <> latest) /\
  TableOfContents.headingsEffect (fst after) showOnly postContent page =
    (latest, false).
Proof.
  intros latest after.
  assert (R : TableOfContents.isEqual latest latest = true)
    by (apply Heq; reflexivity).
  unfold after, TableOfContents.headingsEffect; fold latest.
  destruct (TableOfContents.isEqual headings latest) eqn:E; simpl.
  - apply Heq in E; subst headings.
    repeat split; try congruence.
    rewrite R; reflexivity.
  - repeat split; auto.
    + intros _ H; apply Heq in H; congruence.
    + rewrite R; reflexivity.
Qed.

End Content.

(** * The further properties at work *)

(** X1 at work: a transient edit brings array [12]. *)
Lemma different_blocks_are_emitted_witness :
  let w := sampleWorld 11 11 [] None false (sampleStore 12 false false) in
  trace (subscriber (env := sampleEnv) w) = [EOnInput (Some 41) 12 20 21] /\
  isSyncingOutcomingValue (subscriber (env := sampleEnv) w) = [12].
Proof.
  intros w.
  pose proof (different_blocks_are_emitted (env := sampleEnv) w
                {| subscribedTo := 1; blocks := 11; isPersistent := false;
                   previousAreBlocksDifferent := false |}
                eq_refl eq_refl eq_refl eq_refl) as (Ht & Hq & _).
  split; [exact Ht | exact Hq].
Defined.

(** X2 at work: the host hands array [12] back. *)
Lemma emitted_value_echo_is_skipped_witness :
  let w := sampleWorld 11 11 [] None false (sampleStore 12 false false) in
  let w' := receiveProps (env := sampleEnv) (sampleProps 12 None None)
              (subscriber (env := sampleEnv) w) in
  trace w' = [EOnInput (Some 41) 12 20 21] /\
  isSyncingOutcomingValue w' = [].
Proof.
  intros w w'.
  pose proof (emitted_value_echo_is_skipped (env := sampleEnv) w
                {| subscribedTo := 1; blocks := 11; isPersistent := false;
                   previousAreBlocksDifferent := false |}
                (sampleProps 12 None None)
                eq_refl eq_refl eq_refl eq_refl eq_refl eq_refl eq_refl)
    as (Ht & _ & Hq).
  split; [exact Ht | exact Hq].
Defined.

(** X4 at work: the persistence flag is set long after the last edit. *)
Lemma persistence_flip_alone_is_silent_witness :
  let w := sampleWorld 11 11 [] None false (sampleStore 11 false true) in
  trace (subscriber (env := sampleEnv) w) = [] /\
  option_map isPersistent (listener (subscriber (env := sampleEnv) w)) =
    Some false.
Proof.
  intros w.
  pose proof (persistence_flip_alone_is_silent (env := sampleEnv) w
                {| subscribedTo := 1; blocks := 11; isPersistent := false;
                   previousAreBlocksDifferent := false |}
                eq_refl eq_refl eq_refl) as (Ht & _ & _ & Hl).
  split; [exact Ht | rewrite Hl; reflexivity].
Defined.

(** X9 at work: the component moves from registry [2] to registry [1]. *)
Lemma registry_change_reattaches_witness :
  let prev := {| settings := 30; value := 11; selectionStart := None;
                 selectionEnd := None; registry := 2;
                 onChange := Some 40; onInput := Some 41 |} in
  let w := sampleWorld 11 10 [12] (Some 11) true (sampleStore 11 false false) in
  trace (didUpdateRegistry prev w) =
    [EUnsubscribe; ESubscribe 1] /\
  option_map blocks (listener (didUpdateRegistry prev w)) =
    Some 11.
Proof.
  intros prev w.
  destruct (registry_change_reattaches (env := sampleEnv) prev w)
    as (Ht & Hl & _).
  - simpl; discriminate.
  - simpl; discriminate.
  - split; [exact Ht | rewrite Hl; reflexivity].
Defined.

(** X11 at work: mount, an edit, its echo, a move to registry [2],
    unmount. *)
Lemma subscriptions_are_balanced_witness :
  let w := constructed (sampleProps 10 None None)
             (fun _ => sampleStore 10 false false) in
  let inputs :=
    [Change 1 (sampleStore 12 false false);
     Receive (sampleProps 12 None None);
     Receive {| settings := 30; value := 12; selectionStart := None;
                selectionEnd := None; registry := 2;
                onChange := Some 40; onInput := Some 41 |}] in
  subscriptionsOpen 0
    (trace (componentWillUnmount
              (session (env := sampleEnv) inputs
                 (componentDidMount (env := sampleEnv) w)))).
Proof.
  intros w inputs.
  exact (proj2 (subscriptions_are_balanced (env := sampleEnv) inputs w
                  eq_refl eq_refl)).
Defined.

(** X12 at work: two edits after unmounting. *)
Lemma unmounted_component_is_silent_witness :
  let w := sampleWorld 11 11 [] None false (sampleStore 11 false false) in
  trace (storeChanges (env := sampleEnv) 1
           [sampleStore 12 false false; sampleStore 13 false true]
           (componentWillUnmount w)) = [EUnsubscribe].
Proof.
  intros w.
  refine (proj1 (unmounted_component_is_silent (env := sampleEnv) 1
                   [sampleStore 12 false false; sampleStore 13 false true]
                   w _)).
  simpl; discriminate.
Defined.

(** X13 at work: only the selection props change. *)
Lemma same_value_makes_no_call_witness :
  let w := set_props (sampleProps 11 (Some 22) (Some 23))
             (sampleWorld 11 11 [] None false (sampleStore 11 false false)) in
  trace (componentDidUpdate (env := sampleEnv) (sampleProps 11 None None) w) =
    [].
Proof.
  intros w.
  exact (proj1 (same_value_makes_no_call (env := sampleEnv)
                  (sampleProps 11 None None) w eq_refl eq_refl eq_refl)).
Defined.

(** X15 at work: the scenario of a transient edit, its promotion and
    the echo of the promoted array. *)
Lemma promoted_value_echo_is_skipped_witness :
  let w0 := sampleWorld 11 11 [] None false (sampleStore 12 false false) in
  let wmid := set_store 1 (sampleStore 12 false true)
                (subscriber (env := sampleEnv) w0) in
  let w' := receiveProps (env := sampleEnv) (sampleProps 12 None None)
              (subscriber (env := sampleEnv) wmid) in
  trace w' = [EOnInput (Some 41) 12 20 21; EOnChange (Some 40) 12 20 21] /\
  isSyncingOutcomingValue w' = [].
Proof.
  intros w0 wmid w'.
  pose proof (promoted_value_echo_is_skipped (env := sampleEnv) w0 wmid
                {| subscribedTo := 1; blocks := 11; isPersistent := false;
                   previousAreBlocksDifferent := false |}
                (sampleProps 12 None None)
                eq_refl eq_refl eq_refl eq_refl eq_refl eq_refl eq_refl
                eq_refl eq_refl eq_refl eq_refl eq_refl eq_refl)
    as (_ & H2 & _ & H4 & H5).
  split; [unfold w'; rewrite H4; exact H2 | exact H5].
Defined.

(** X17 at work: a heading after one page break. *)
Lemma pageIndex_counts_preceding_breaks_witness :
  TableOfContents.pageIndex
    (TableOfContents.sampleSelectors
       [("a", "core/paragraph"); ("b", "core/nextpage");
        ("c", "core/table-of-contents")]%string) "c" = 2%nat.
Proof.
  exact (pageIndex_counts_preceding_breaks
           (TableOfContents.sampleSelectors
              [("a", "core/paragraph"); ("b", "core/nextpage");
               ("c", "core/table-of-contents")]%string) "c" eq_refl).
Defined.

(** X18 at work: the first block and the block after the page break. *)
Lemma pageIndex_monotone_witness :
  let sel := TableOfContents.sampleSelectors
               [("a", "core/paragraph"); ("b", "core/nextpage");
                ("c", "core/table-of-contents")]%string in
  (TableOfContents.pageIndex sel "a" <= TableOfContents.pageIndex sel "c")%nat.
Proof.
  intros sel.
  refine (proj1 (pageIndex_monotone sel "a" "c" _ _)); vm_compute;
    discriminate.
Defined.

(** X19 at work: a content of two pages. *)
Lemma split_join_witness :
  TableOfContents.join "<!--nextpage-->"
    (TableOfContents.split "<!--nextpage-->" "#one<!--nextpage-->#two") =
  "#one<!--nextpage-->#two"%string.
Proof.
  refine (proj2 (split_join "<!--nextpage-->" "#one<!--nextpage-->#two" _)).
  discriminate.
Defined.

(** X20 at work: a content of one page. *)
Lemma unpaginated_content_is_one_page_witness :
  TableOfContents.latestHeadings (utils := TableOfContents.sampleUtils)
    true "#one|text|#two" 1 =
  TableOfContents.latestHeadings (utils := TableOfContents.sampleUtils)
    false "#one|text|#two" 1.
Proof.
  exact (proj1 (unpaginated_content_is_one_page
                  (utils := TableOfContents.sampleUtils)
                  "#one|text|#two" eq_refl) 1%nat).
Defined.

(** X21 at work: the state holds the headings of an older content. *)
Lemma headingsEffect_settles_witness :
  fst (TableOfContents.headingsEffect (utils := TableOfContents.sampleUtils)
         ["#old"%string] false "#one|text|#two" 1) =
  ["#one"; "#two"]%string.
Proof.
  refine (proj1 (headingsEffect_settles
                   (utils := TableOfContents.sampleUtils) _
                   ["#old"%string] false "#one|text|#two" 1)).
  intros a b; simpl.
  destruct (list_eq_dec string_dec a b); split; congruence.
Defined.

(** * The selection at activation *)

Section InitialSelection.

Context {env : Environment}.

(** C9: the reset made by [componentDidMount] is not followed by
    [resetSelection], whatever the selection props are, so also when both
    [selectionStart] and [selectionEnd] are set: mounting dispatches
    [updateSettings] and [resetBlocks] with the value, subscribes, and
    makes no other call.  The reset branch of [componentDidUpdate]
    forwards such a pair; the one of [componentDidMount] does not. *)
Theorem mount_forwards_no_selection (p : Props)
    (st : Registry -> StoreState) :
  trace (componentDidMount (constructed p st)) =
    [EDispatch (registry p) (UpdateSettings (settings p));
     EDispatch (registry p) (ResetBlocks (value p));
     ESubscribe (registry p)] /\
  filter isResetBlocks (trace (componentDidMount (constructed p st))) =
    [EDispatch (registry p) (ResetBlocks (value p))] /\
  filter isResetSelection (trace (componentDidMount (constructed p st))) =
    [].
Proof.
  assert (T : trace (componentDidMount (constructed p st)) =
    [EDispatch (registry p) (UpdateSettings (settings p));
     EDispatch (registry p) (ResetBlocks (value p));
     ESubscribe (registry p)]).
  { unfold componentDidMount, updateSettings, resetBlocks.
    rewrite (dispatch_unobserved _ (constructed p st) eq_refl).
    rewrite dispatch_unobserved by reflexivity.
    reflexivity. }
  rewrite T; repeat split; reflexivity.
Qed.

End InitialSelection.

(** The same props, with both selection endpoints set, given to a
    component that mounts and to a mounted component that receives them
    with a new value: only the second forwards the selection. *)
Example selection_at_mount_and_at_update :
  let p := sampleProps 11 (Some 22) (Some 23) in
  trace (componentDidMount (env := sampleEnv)
           (constructed p (fun _ => sampleStore 10 false false))) =
    [EDispatch 1 (UpdateSettings 30); EDispatch 1 (ResetBlocks 11);
     ESubscribe 1] /\
  trace (receiveProps (env := sampleEnv) p
           (sampleWorld 10 10 [] None false (sampleStore 10 false false))) =
    [EDispatch 1 (ResetBlocks 11); EDispatch 1 (ResetSelection 22 23)].
Proof. split; reflexivity. Qed.
